(** * kotomi-ui: the editable grid (Table.tsx) and the lazy tree (Tree)

    A shallow embedding of the two React components of the repository and
    the properties of their state handling.

    - [Js]: the JavaScript values and objects the components handle.
    - [Json]: [JSON.stringify], which the grid uses to compare two rows.
    - [Table]: the grid component of [src/components/table/Table.tsx]; its
      React state, its instance fields and its event handlers, written in a
      small state-and-output monad.
    - [Tree]: the tree component, over an explicit store of node objects and
      arrays, because its [onLoadData] mutates a shared node in place.
    - [JsonFacts], [TableFacts], [TreeFacts]: what is proved of them.
    - [TableLoading], [TableSaves], [TableEditMode], [TableRowEdit],
      [TableColumns], [TableRuns], [TreeRender]: further properties of the
      handlers, the column descriptors and the rendering of the tree. *)

From Stdlib Require Import ZArith Ascii String.
From stdpp Require Import gmap strings list fin_maps pretty.

Open Scope Z_scope.

(** ** JavaScript data *)

Module Js.

(** Field values of rows and of query parameters: the JSON scalars.  Numbers
    are the integral ones, which JavaScript prints in decimal.  A field that
    holds [undefined] is not represented and counts as absent: reading it
    ([o[k]]) and serialising it ([JSON.stringify]) give what an absent field
    gives. *)
Inductive value : Type :=
| VNull
| VBool (b : bool)
| VNum (n : Z)
| VStr (s : string).

#[global] Instance value_eq_dec : EqDecision value.
Proof. solve_decision. Defined.

(** An object used as a record (a row of type [T]): its own enumerable
    properties in property order. *)
Abbreviation obj := (list (string * value)).

(** An object used as a dictionary (the query parameters). *)
Abbreviation dict := (gmap string value).

(** [o[k]] when [k] is an own property of [o]; [None] when it is not.  A
    row is a plain object, so that for the names of [Object_prototype] the
    read then finds the inherited member and is not [undefined]; for every
    other name [None] is [undefined]. *)
Fixpoint get_field (o : obj) (k : string) : option value :=
  match o with
  | [] => None
  | (k', v) :: o' => if decide (k' = k) then Some v else get_field o' k
  end.

(** The property names every plain object inherits. *)
Definition Object_prototype : list string :=
  ["constructor"; "hasOwnProperty"; "isPrototypeOf"; "propertyIsEnumerable";
   "toLocaleString"; "toString"; "valueOf"; "__proto__";
   "__defineGetter__"; "__defineSetter__"; "__lookupGetter__";
   "__lookupSetter__"].

(** The number a property name denotes when it is an array index: the
    decimal numeral, without leading zero, of an integer below
    [2^32 - 1]. *)
Fixpoint digits_value (acc : N) (s : string) : option N :=
  match s with
  | EmptyString => Some acc
  | String c s' =>
      let d := N_of_ascii c in
      if ((48 <=? d) && (d <=? 57))%N
      then digits_value (10 * acc + (d - 48))%N s'
      else None
  end.

Definition array_index (k : string) : option N :=
  match k with
  | EmptyString => None
  | _ =>
      match digits_value 0 k with
      | Some n =>
          if bool_decide (pretty n = k) && (n <? 4294967295)%N
          then Some n else None
      | None => None
      end
  end.

(** A new property whose name is the array index [n]: after the array
    indices below [n], before every other property. *)
Fixpoint insert_index (o : obj) (n : N) (k : string) (v : value) : obj :=
  match o with
  | [] => [(k, v)]
  | (k', v') :: o' =>
      match array_index k' with
      | Some n' =>
          if (n' <? n)%N then (k', v') :: insert_index o' n k v
          else (k, v) :: o
      | None => (k, v) :: o
      end
  end.

Fixpoint replace_field (o : obj) (k : string) (v : value) : obj :=
  match o with
  | [] => []
  | (k', v') :: o' =>
      if decide (k' = k) then (k, v) :: o' else (k', v') :: replace_field o' k v
  end.

(** The own property [k] of [o] set to [v]: an existing property keeps its
    place; a new one is added in property order, which has the array
    indices first, in ascending order, and then the other names in the
    order of their creation. *)
Definition set_field (o : obj) (k : string) (v : value) : obj :=
  if decide (k ∈ o.*1) then replace_field o k v
  else match array_index k with
       | Some n => insert_index o n k v
       | None => o ++ [(k, v)]
       end.

(** An object under construction: its own properties, and whether its
    prototype has been set to [null]. *)
Record object : Type := { own : obj; null_prototype : bool }.

(** [{...o}] as the start of a construction: the prototype is
    [Object.prototype]. *)
Definition literal (o : obj) : object := {| own := o; null_prototype := false |}.

(** [o[k] = v] for a scalar [v].  Every name but [__proto__] sets the own
    property.  [__proto__] does so too when it is an own property already
    or when the prototype is [null]; otherwise the assignment goes to the
    setter of [Object.prototype], which makes [null] the prototype when [v]
    is [null], does nothing for another scalar, and creates no property. *)
Definition assign (o : object) (k : string) (v : value) : object :=
  if decide (k = "__proto__") then
    if bool_decide (k ∈ (own o).*1) || null_prototype o then
      {| own := set_field (own o) k v; null_prototype := null_prototype o |}
    else
      {| own := own o; null_prototype := bool_decide (v = VNull) |}
  else {| own := set_field (own o) k v; null_prototype := null_prototype o |}.

(** [{...o}]: a copy with the same properties in the same order. *)
Definition spread (o : obj) : obj := o.

(** [a === b] on what [o[k]] returns. *)
Definition strict_eq (a b : option value) : bool := bool_decide (a = b).

(** [a == undefined]: true of [undefined] and of [null]. *)
Definition loose_eq_undefined (a : option value) : bool :=
  match a with
  | None | Some VNull => true
  | Some _ => false
  end.

(** [{...a, ...b, ...c}] on dictionaries: a later layer overwrites an
    earlier one.  [None] is an [undefined] layer, which spreads to
    nothing. *)
Definition spread_layer (acc : dict) (layer : option dict) : dict :=
  match layer with
  | Some d => d ∪ acc
  | None => acc
  end.

Definition spread_all (layers : list (option dict)) : dict :=
  foldl spread_layer ∅ layers.

End Js.

Import Js.

(** ** [JSON.stringify] on records *)

Module Json.

Definition quote_char : ascii := "034"%char.
Definition backslash : ascii := "092"%char.

Definition hex_digit (n : N) : ascii :=
  match n with
  | 0 => "0" | 1 => "1" | 2 => "2" | 3 => "3" | 4 => "4" | 5 => "5"
  | 6 => "6" | 7 => "7" | 8 => "8" | 9 => "9" | 10 => "a" | 11 => "b"
  | 12 => "c" | 13 => "d" | 14 => "e" | _ => "f"
  end%char%N.

(** One character of a quoted string: the quote, the backslash and the
    control characters are escaped, the short escapes where JSON has
    them. *)
Definition escape_char (c : ascii) : string :=
  let n := N_of_ascii c in
  if decide (n = 8)%N then "\b"
  else if decide (n = 9)%N then "\t"
  else if decide (n = 10)%N then "\n"
  else if decide (n = 12)%N then "\f"
  else if decide (n = 13)%N then "\r"
  else if decide (n = 34)%N then String backslash (String quote_char "")
  else if decide (n = 92)%N then String backslash (String backslash "")
  else if decide (n < 32)%N then
    "\u00" +:+ String (hex_digit (n `div` 16)) (String (hex_digit (n `mod` 16)) "")
  else String c "".

Fixpoint escape (s : string) : string :=
  match s with
  | EmptyString => ""
  | String c s' => escape_char c +:+ escape s'
  end.

Definition quote (s : string) : string :=
  String quote_char (escape s +:+ String quote_char "").

Definition stringify_value (v : value) : string :=
  match v with
  | VNull => "null"
  | VBool true => "true"
  | VBool false => "false"
  | VNum n => pretty n
  | VStr s => quote s
  end.

Definition stringify_member (m : string * value) : string :=
  quote m.1 +:+ ":" +:+ stringify_value m.2.

Fixpoint stringify_members (o : obj) : string :=
  match o with
  | [] => ""
  | m :: o' =>
      stringify_member m +:+
      match o' with
      | [] => ""
      | _ :: _ => "," +:+ stringify_members o'
      end
  end.

Definition JSON_stringify (o : obj) : string :=
  "{" +:+ stringify_members o +:+ "}".

(** The reader of one escaped character, the inverse of [escape_char] on
    what it writes; used to show that [quote] loses nothing. *)
Definition unhex (c : ascii) : option N :=
  let n := N_of_ascii c in
  if decide (48 ≤ n ≤ 57)%N then Some (n - 48)%N
  else if decide (97 ≤ n ≤ 102)%N then Some (n - 87)%N
  else None.

Definition unescape_char (s : string) : option (ascii * string) :=
  match s with
  | EmptyString => None
  | String c r =>
      if decide (c = quote_char) then None
      else if decide (c = backslash) then
        match r with
        | String "b" r' => Some (ascii_of_N 8, r')
        | String "t" r' => Some (ascii_of_N 9, r')
        | String "n" r' => Some (ascii_of_N 10, r')
        | String "f" r' => Some (ascii_of_N 12, r')
        | String "r" r' => Some (ascii_of_N 13, r')
        | String "u" (String "0" (String "0" (String h (String l r')))) =>
            match unhex h, unhex l with
            | Some a, Some b => Some (ascii_of_N (16 * a + b), r')
            | _, _ => None
            end
        | String c' r' =>
            if decide (c' = quote_char) then Some (quote_char, r')
            else if decide (c' = backslash) then Some (backslash, r')
            else None
        | EmptyString => None
        end
      else Some (c, r)
  end.

(** Decimal digits, and what may follow a value inside an object: nothing,
    a comma or the closing brace.  They describe the text [JSON_stringify]
    writes. *)
Definition is_digit (c : ascii) : bool :=
  bool_decide (48 ≤ N_of_ascii c ≤ 57)%N.

Fixpoint all_digits (s : string) : bool :=
  match s with
  | EmptyString => true
  | String c s' => is_digit c && all_digits s'
  end.

Definition terminated (r : string) : Prop :=
  match r with
  | EmptyString => True
  | String c _ => c = ","%char ∨ c = "}"%char
  end.

End Json.

Import Json.

(** ** The grid component *)

Module Table.

(** *** Types of [Table.tsx] *)

Record TableSorter : Type := { name : string; order : string }.

(** What [loadData] is called with. *)
Record LoadRequest : Type := {
  req_page : Z;
  req_pageSize : Z;
  req_param : dict;
  req_sorter : option TableSorter
}.

(** What the promise of [loadData] resolves to. *)
Record LoadResponse : Type := {
  resp_dataSource : list obj;
  resp_total : Z
}.

(** The second argument of [event.onSave]. *)
Inductive SaveType : Type := DELETE | UPDATE | CREATE.

(** What the promise of [event.onSave] resolves to.  The handlers only test
    [respState !== false] and [respState === undefined]. *)
Inductive RespState : Type := RespTrue | RespFalse | RespUndefined.

Definition neq_false (r : RespState) : bool :=
  match r with RespFalse => false | _ => true end.

(** An entry of [currentEditorCell].  [EditableCell] is not among the
    sources: a registered cell is represented by whether the promise of its
    [onSave('hide')] is fulfilled, and the call is taken to leave the grid
    itself alone. *)
Record EditorCell : Type := { cell_id : nat; hide_fulfils : bool }.

(** The props the handlers read.  [event_onSave] and [form] say whether the
    hook and the form are defined; [event_onRow] is the caller's hook, the
    listener map it returns given by the names of its listeners. *)
Record Props : Type := {
  defaultPageSize : Z;
  defaultParam : option dict;
  rowKey : string;
  event_onSave : bool;
  event_onRow : option (obj → nat → list string);
  form : bool
}.

(** [class DataSourceState]. *)
Record DataSourceState : Type := {
  update : list obj;
  delete_ : list obj;
  create : list obj
}.

(** [type State]. *)
Record State : Type := {
  dataSource : list obj;
  total : Z;
  loading : bool;
  page : Z;
  pageSize : Z;
  sorter : option TableSorter;
  editingKey : option value
}.

(** A mounted component: props, React state and the private fields. *)
Record Table : Type := {
  props : Props;
  state : State;
  REQUEST_PARAM : dict;
  dataSourceState : DataSourceState;
  currentEditorCell : list EditorCell
}.

(** The field initialisers of the class. *)
Definition new (p : Props) : Table := {|
  props := p;
  state := {| dataSource := []; total := 0; loading := true; page := 1;
              pageSize := 0; sorter := None; editingKey := None |};
  REQUEST_PARAM := ∅;
  dataSourceState := {| update := []; delete_ := []; create := [] |};
  currentEditorCell := []
|}.

(** Calls that leave the component. *)
Inductive effect : Type :=
| CallLoadData (r : LoadRequest)
| CallOnSave (record : obj) (type : SaveType)
| CallCellOnSave (c : EditorCell).

(** *** Handlers as state transformers

    A handler reads and writes the component and emits the calls it makes,
    in order.  A promise the handler waits for is an argument of the
    handler: the value the promise resolves to.  The handler then denotes
    the whole chain, the callback included; events that arrive between the
    call and the resolution are not interleaved. *)

Definition M (A : Type) : Type := Table → A * Table * list effect.

#[global] Instance M_ret : MRet M := λ A a t, (a, t, []).

#[global] Instance M_bind : MBind M := λ A B k m t,
  let '(a, t1, e1) := m t in
  let '(b, t2, e2) := k a t1 in
  (b, t2, e1 ++ e2).

Definition ret {A} (a : A) : M A := mret a.

Definition this : M Table := λ t, (t, t, []).
Definition emit (e : effect) : M unit := λ t, (tt, t, [e]).
Definition modify (f : Table → Table) : M unit := λ t, (tt, f t, []).

Definition exec {A} (m : M A) (t : Table) : Table := (m t).1.2.
Definition calls {A} (m : M A) (t : Table) : list effect := (m t).2.
Definition result {A} (m : M A) (t : Table) : A := (m t).1.1.

Fixpoint forEach {A} (f : A → M unit) (l : list A) : M unit :=
  match l with
  | [] => ret tt
  | x :: l' => f x;; forEach f l'
  end.

(** [this.setState({...})]: the fields given are replaced. *)
Definition with_state (f : State → State) (t : Table) : Table :=
  {| props := props t; state := f (state t);
     REQUEST_PARAM := REQUEST_PARAM t;
     dataSourceState := dataSourceState t;
     currentEditorCell := currentEditorCell t |}.

Definition setState_loading (b : bool) : M unit :=
  modify (with_state (λ s,
    {| dataSource := dataSource s; total := total s; loading := b;
       page := page s; pageSize := pageSize s; sorter := sorter s;
       editingKey := editingKey s |})).

Definition setState_loaded (ds : list obj) (n : Z) : M unit :=
  modify (with_state (λ s,
    {| dataSource := ds; total := n; loading := false;
       page := page s; pageSize := pageSize s; sorter := sorter s;
       editingKey := editingKey s |})).

Definition setState_dataSource (ds : list obj) : M unit :=
  modify (with_state (λ s,
    {| dataSource := ds; total := total s; loading := loading s;
       page := page s; pageSize := pageSize s; sorter := sorter s;
       editingKey := editingKey s |})).

Definition setState_editingKey (k : option value) : M unit :=
  modify (with_state (λ s,
    {| dataSource := dataSource s; total := total s; loading := loading s;
       page := page s; pageSize := pageSize s; sorter := sorter s;
       editingKey := k |})).

Definition set_REQUEST_PARAM (d : dict) : M unit :=
  modify (λ t,
    {| props := props t; state := state t; REQUEST_PARAM := d;
       dataSourceState := dataSourceState t;
       currentEditorCell := currentEditorCell t |}).

Definition set_dataSourceState (d : DataSourceState) : M unit :=
  modify (λ t,
    {| props := props t; state := state t;
       REQUEST_PARAM := REQUEST_PARAM t; dataSourceState := d;
       currentEditorCell := currentEditorCell t |}).

(** *** [editStash], [editStatus] *)

(** Every registered cell is asked to hide; the three collections are
    emptied ([splice(0)]) in the callback of [Promise.all], which runs when
    every one of the promises is fulfilled and never otherwise. *)
Definition editStash : M unit :=
  self ← this;
  forEach (λ element, emit (CallCellOnSave element)) (currentEditorCell self);;
  if forallb hide_fulfils (currentEditorCell self)
  then set_dataSourceState {| update := []; delete_ := []; create := [] |}
  else ret tt.

Definition editStatus (t : Table) : bool :=
  if (0 <? length (create (dataSourceState t)))%nat then true
  else if (0 <? length (update (dataSourceState t)))%nat then true
  else if (0 <? length (delete_ (dataSourceState t)))%nat then true
  else false.

(** *** [requestLoadData], [reload], [componentDidMount], [onChange] *)

(** [resp] is what the promise of [loadData] resolves to; [None] when it is
    rejected or still pending, where no callback runs. *)
Definition requestLoadData (page pageSize : Z) (param : option dict)
    (sorter : option TableSorter) (resp : option LoadResponse) : M unit :=
  self ← this;
  let defaultParam := defaultParam (props self) in
  setState_loading true;;
  emit (CallLoadData {|
    req_page := page;
    req_pageSize := pageSize;
    req_param := spread_all [param; defaultParam; Some (REQUEST_PARAM self)];
    req_sorter := sorter |});;
  match resp with
  | Some r =>
      setState_loaded (resp_dataSource r) (resp_total r);;
      editStash
  | None => ret tt
  end.

(** [a || b] on numbers: [0] is the falsy one. *)
Definition or_number (a b : Z) : Z := if decide (a = 0) then b else a.

Definition reload (param : option dict) (resp : option LoadResponse) : M unit :=
  match param with
  | Some p => set_REQUEST_PARAM p
  | None => ret tt
  end;;
  self ← this;
  requestLoadData
    (page (state self))
    (or_number (pageSize (state self)) (defaultPageSize (props self)))
    param
    (sorter (state self))
    resp.

Definition componentDidMount (resp : option LoadResponse) : M unit :=
  self ← this;
  requestLoadData 1 (defaultPageSize (props self)) None None resp.

(** The [onChange] of the pagination and sorting controls. *)
Definition onChange (current pageSize : Z) (field order : string)
    (resp : option LoadResponse) : M unit :=
  requestLoadData current pageSize None
    (Some {| name := field; order := order |}) resp.

(** *** Row edit mode and the reserved columns *)

(** [record[rowKey]]. *)
Definition key_of (t : Table) (record : obj) : option value :=
  get_field record (rowKey (props t)).

Definition isEditing (t : Table) (record : obj) : bool :=
  strict_eq (key_of t record) (editingKey (state t)).

(** The two states of row editing; keys are strings, as [State] declares
    [editingKey]. *)
Definition NotEditing (t : Table) : Prop := editingKey (state t) = None.

(** The same for a key of any kind: [editingKey] is what [record[rowKey]]
    held when the edit icon was clicked, a string or not. *)
Definition Editing (v : value) (t : Table) : Prop :=
  editingKey (state t) = Some v.

(** The icons a reserved column shows in a row. *)
Inductive Icon : Type := IconEdit | IconDelete | IconCheck | IconUndo.

#[global] Instance Icon_eq_dec : EqDecision Icon.
Proof. solve_decision. Defined.

(** The fragment returned for a row: the confirm and undo icons for the row
    being edited, the [editor] fragment when no row is, nothing otherwise. *)
Definition getColumnOperatingRender (t : Table) (editor : list Icon)
    (record : obj) : list Icon :=
  if isEditing t record then [IconCheck; IconUndo]
  else if strict_eq (editingKey (state t)) None then editor
  else [].

(** The [render] that [getColumns] installs on a column, by [dataIndex];
    [event.onBeforeRenderPromiseColumn] is the default one, which returns
    the fragment as it is. *)
Definition column_render (t : Table) (dataIndex : string) (record : obj)
    : list Icon :=
  if decide (dataIndex = "$operating") then
    getColumnOperatingRender t [IconEdit; IconDelete] record
  else if decide (dataIndex = "$operating#edit") then
    getColumnOperatingRender t [IconEdit] record
  else if decide (dataIndex = "$operating#del") then
    [IconDelete]
  else [].

(** The [onClick] of the edit icon. *)
Definition edit_onClick (record : obj) : M unit :=
  self ← this;
  setState_editingKey (key_of self record).

(** The [onClick] of the undo icon. *)
Definition undo_onClick : M unit := setState_editingKey None.

(** [key.split(';')[0]]. *)
Fixpoint split_head (s : string) : string :=
  match s with
  | EmptyString => ""
  | String c s' => if decide (c = ";"%char) then "" else String c (split_head s')
  end.

(** The [onClick] of the confirm icon.  [err] and [values] are what
    [form.validateFields] passes to its callback, [respState] what the hook
    resolves to. *)
Definition check_onClick (record : obj) (err : bool) (values : obj)
    (respState : RespState) : M unit :=
  self ← this;
  if event_onSave (props self) && form (props self) then
    if negb err then
      let newRecord :=
        foldl (λ newRecord kv, assign newRecord (split_head kv.1) kv.2)
              (literal (spread record)) values in
      emit (CallOnSave (spread (own newRecord)) UPDATE);;
      if neq_false respState then setState_editingKey None else ret tt
    else ret tt
  else ret tt.

(** The [onClick] of the delete icon, the same in [getColumnOperating] and
    in [getColumnOperatingDel]. *)
Definition delete_onClick (record : obj) (respState : RespState)
    (resp : option LoadResponse) : M unit :=
  self ← this;
  if event_onSave (props self) then
    emit (CallOnSave record DELETE);;
    if neq_false respState then reload None resp else ret tt
  else ret tt.

(** The [onRow] prop given to the toolkit. *)
Definition render_onRow (t : Table) (record : obj) (index : nat) : list string :=
  if loose_eq_undefined (editingKey (state t)) then
    match event_onRow (props t) with
    | None => []
    | Some onRow => onRow record index
    end
  else [].

(** *** The [$index] column *)

Definition getColumnIndex_render (index : nat) : nat := index + 1.

(** The toolkit calls a column's [render] once per row of the [dataSource]
    it was given, with the row and its position in it. *)
Definition render_rows {A} (render : obj → nat → A) (rows : list obj) : list A :=
  imap (λ index record, render record index) rows.

Definition index_column (t : Table) : list nat :=
  render_rows (λ _ index, getColumnIndex_render index) (dataSource (state t)).

(** *** The per-cell save callback ([onCell]'s [onSave]) *)

Definition same_key (rowKey : string) (values data : obj) : Prop :=
  get_field data rowKey = get_field values rowKey.

#[global] Instance same_key_dec rowKey values data :
  Decision (same_key rowKey values data).
Proof. unfold same_key. apply _. Defined.

(** The [for] loop over [update]: the first entry with the key of [values]
    is replaced by a copy of [values] if the two serialise differently, and
    the loop stops there. *)
Fixpoint update_loop (rowKey : string) (values : obj) (update : list obj)
    : list obj :=
  match update with
  | [] => []
  | element :: rest =>
      if decide (same_key rowKey values element) then
        if negb (String.eqb (JSON_stringify element) (JSON_stringify values))
        then spread values :: rest
        else element :: rest
      else element :: update_loop rowKey values rest
  end.

Definition set_update (u : list obj) : M unit :=
  self ← this;
  set_dataSourceState
    {| update := u;
       delete_ := delete_ (dataSourceState self);
       create := create (dataSourceState self) |}.

Definition bool_of_resp (r : RespState) : bool :=
  match r with RespFalse => false | _ => true end.

(** [dataSource] is the snapshot of the last render.  The promise of the
    callback resolves to the boolean returned. *)
Definition cell_onSave (values : obj) (respState : RespState) : M bool :=
  self ← this;
  let rowKey := rowKey (props self) in
  let dataSource := dataSource (state self) in
  let newData :=
    (λ data, if decide (same_key rowKey values data) then spread values else data)
      <$> dataSource in
  let update := update (dataSourceState self) in
  (if (0 <? length (filter (same_key rowKey values) update))%nat
   then set_update (update_loop rowKey values update)
   else set_update (update ++ [values]));;
  setState_dataSource newData;;
  if event_onSave (props self) then
    emit (CallOnSave values UPDATE);;
    match respState with
    | RespUndefined => ret true
    | _ => ret (bool_of_resp respState)
    end
  else ret true.

(** *** User events

    What the toolkit and the caller can do to a mounted grid.  A click
    reaches the [onClick] of an icon only if the column rendered that icon
    in that row; [Oracle] collects what the collaborators answer during the
    handler. *)

Record Oracle : Type := {
  err : bool;
  values : obj;
  respState : RespState;
  resp : option LoadResponse
}.

Inductive Event : Type :=
| Click (dataIndex : string) (icon : Icon) (record : obj)
| CellSave (values : obj)
| Reload (param : option dict)
| Change (current pageSize : Z) (field order : string).

Definition click (dataIndex : string) (icon : Icon) (record : obj)
    (o : Oracle) : M unit :=
  self ← this;
  if bool_decide (icon ∈ column_render self dataIndex record) then
    match icon with
    | IconEdit => edit_onClick record
    | IconUndo => undo_onClick
    | IconCheck => check_onClick record (err o) (values o) (respState o)
    | IconDelete => delete_onClick record (respState o) (resp o)
    end
  else ret tt.

Definition handle (e : Event) (o : Oracle) : M unit :=
  match e with
  | Click dataIndex icon record => click dataIndex icon record o
  | CellSave values => cell_onSave values (respState o);; ret tt
  | Reload param => reload param (resp o)
  | Change current pageSize field order =>
      onChange current pageSize field order (resp o)
  end.

(** The component after a sequence of events, each with its oracle. *)
Definition run (es : list (Event * Oracle)) (t : Table) : Table :=
  foldl (λ t eo, exec (handle eo.1 eo.2) t) t es.

(** *** Observations and expected states *)

(** The parameter object of the [loadData] call that opens [es]. *)
Definition requested_param (es : list effect) : option dict :=
  match es with
  | CallLoadData r :: _ => Some (req_param r)
  | _ => None
  end.

Definition no_diff : DataSourceState :=
  {| update := []; delete_ := []; create := [] |}.

(** Every promise that [editStash] waits for is fulfilled. *)
Definition all_hide_fulfil (t : Table) : Prop :=
  forallb hide_fulfils (currentEditorCell t) = true.

Definition with_REQUEST_PARAM (d : dict) (t : Table) : Table :=
  {| props := props t; state := state t; REQUEST_PARAM := d;
     dataSourceState := dataSourceState t;
     currentEditorCell := currentEditorCell t |}.

Definition with_editingKey (k : option value) (t : Table) : Table :=
  with_state (λ s,
    {| dataSource := dataSource s; total := total s; loading := loading s;
       page := page s; pageSize := pageSize s; sorter := sorter s;
       editingKey := k |}) t.

(** The record the confirm icon passes to the hook. *)
Definition merged_record (record values : obj) : obj :=
  spread (own (foldl (λ newRecord kv, assign newRecord (split_head kv.1) kv.2)
                     (literal (spread record)) values)).

(** What the per-cell save does to [update]. *)
Definition update_onSave (rowKey : string) (values : obj) (update : list obj)
    : list obj :=
  if (0 <? length (filter (same_key rowKey values) update))%nat
  then update_loop rowKey values update
  else update ++ [values].

(** The component after a per-cell save of [values]. *)
Definition saved_table (t : Table) (values : obj) : Table :=
  {| props := props t;
     state := {| dataSource :=
                   (λ data, if decide (same_key (rowKey (props t)) values data)
                            then spread values else data)
                     <$> dataSource (state t);
                 total := total (state t); loading := loading (state t);
                 page := page (state t); pageSize := pageSize (state t);
                 sorter := sorter (state t);
                 editingKey := editingKey (state t) |};
     REQUEST_PARAM := REQUEST_PARAM t;
     dataSourceState :=
       {| update := update_onSave (rowKey (props t)) values
                     (update (dataSourceState t));
          delete_ := delete_ (dataSourceState t);
          create := create (dataSourceState t) |};
     currentEditorCell := currentEditorCell t |}.

(** The [updated] collection as the specification words it: the entry of a
    key is added once, and a later save of that key replaces the entry
    where it stands when the value saved is another one; [k] is the key
    field. *)
Definition updated_spec (k : string) (values : obj) (update : list obj)
    : list obj :=
  match list_find (same_key k values) update with
  | Some (i, element) =>
      if decide (element = values) then update else <[i := values]> update
  | None => update ++ [values]
  end.

(** The keys of the entries of [update], in order. *)
Definition update_keys (t : Table) : list (option value) :=
  key_of t <$> update (dataSourceState t).

(** *** Sample components *)

Definition example_props (d : option dict) : Props :=
  {| defaultPageSize := 300; defaultParam := d; rowKey := "id";
     event_onSave := true;
     event_onRow := Some (λ _ _, ["onClick"]);
     form := true |}.

Definition page_of_rows (rows : list obj) (n : Z) : LoadResponse :=
  {| resp_dataSource := rows; resp_total := n |}.

Definition first_row : obj := [("id", VStr "1"); ("name", VStr "a")].
Definition edited_row : obj := [("id", VStr "1"); ("name", VStr "b")].

(** Default parameter [{a:1, b:2}], stored request parameter [{b:3}]. *)
Definition layered_table : Table :=
  with_REQUEST_PARAM {[ "b" := VNum 3 ]}
    (new (example_props (Some {[ "a" := VNum 1; "b" := VNum 2 ]}))).

(** Mounted, with a first page of one row loaded. *)
Definition loaded_table : Table :=
  exec (componentDidMount (Some (page_of_rows [first_row] 1)))
       (new (example_props None)).

(** One staged update and one registered editor cell. *)
Definition staged_table : Table :=
  {| props := props loaded_table;
     state := state loaded_table;
     REQUEST_PARAM := REQUEST_PARAM loaded_table;
     dataSourceState := {| update := [edited_row]; delete_ := []; create := [] |};
     currentEditorCell := [{| cell_id := 0; hide_fulfils := true |}] |}.

(** The same, with an editor cell whose [onSave('hide')] is rejected. *)
Definition stuck_table : Table :=
  {| props := props loaded_table;
     state := state loaded_table;
     REQUEST_PARAM := REQUEST_PARAM loaded_table;
     dataSourceState := {| update := [edited_row]; delete_ := []; create := [] |};
     currentEditorCell := [{| cell_id := 0; hide_fulfils := false |}] |}.

Definition sample_oracle : Oracle :=
  {| err := false; values := []; respState := RespTrue; resp := None |}.

(** The row with key ["1"] put in edit mode. *)
Definition row_editing_table : Table :=
  exec (click "$operating" IconEdit first_row sample_oracle) loaded_table.

Definition ten_rows : list obj :=
  (λ i : nat, [("id", VNum (Z.of_nat i))]) <$> seq 21 10.

(** *** The [$state] column *)

(** The [render] of [getColumnState]: whether the edit marker is shown in
    the row. *)
Definition getColumnState_render (t : Table) (record : obj) : bool :=
  (0 <? length (filter (same_key (rowKey (props t)) record)
                       (update (dataSourceState t))))%nat
  || (0 <? length (filter (same_key (rowKey (props t)) record)
                          (create (dataSourceState t))))%nat.

(** *** [getColumns] on the column descriptors *)

(** [column.sorter]: absent, a boolean, or a compare function. *)
Inductive Sorter : Type := SorterUndefined | SorterBool (b : bool) | SorterFunction.

(** [column.render]: absent, the caller's own, or one that [getColumns]
    installs. *)
Inductive Render : Type :=
| RenderUndefined
| RenderCaller
| RenderOperating
| RenderOperatingEdit
| RenderOperatingDel
| RenderState
| RenderIndex
| RenderAlias (key : string).

(** [column.onCell]: absent, the caller's own, or the grid's. *)
Inductive OnCell : Type := OnCellUndefined | OnCellCaller | OnCellGrid.

(** The fields of [ColumnProps] that [getColumns] reads or writes.  [width]
    is a JavaScript value that may be [undefined] ([None]) or [null]. *)
Record ColumnProps : Type := {
  dataIndex : option string;
  width : option value;
  ellipsis : option bool;
  title : option string;
  sortDirections : option (list string);
  column_sorter : Sorter;
  aliasDataIndex : option string;
  render : Render;
  onCell : OnCell
}.

#[global] Instance Sorter_eq_dec : EqDecision Sorter.
Proof. solve_decision. Defined.

Definition set_width (w : option value) (c : ColumnProps) : ColumnProps :=
  {| dataIndex := dataIndex c; width := w; ellipsis := ellipsis c;
     title := title c; sortDirections := sortDirections c;
     column_sorter := column_sorter c; aliasDataIndex := aliasDataIndex c;
     render := render c; onCell := onCell c |}.

Definition set_ellipsis (e : option bool) (c : ColumnProps) : ColumnProps :=
  {| dataIndex := dataIndex c; width := width c; ellipsis := e;
     title := title c; sortDirections := sortDirections c;
     column_sorter := column_sorter c; aliasDataIndex := aliasDataIndex c;
     render := render c; onCell := onCell c |}.

Definition set_title (x : option string) (c : ColumnProps) : ColumnProps :=
  {| dataIndex := dataIndex c; width := width c; ellipsis := ellipsis c;
     title := x; sortDirections := sortDirections c;
     column_sorter := column_sorter c; aliasDataIndex := aliasDataIndex c;
     render := render c; onCell := onCell c |}.

Definition set_sortDirections (d : option (list string)) (c : ColumnProps)
    : ColumnProps :=
  {| dataIndex := dataIndex c; width := width c; ellipsis := ellipsis c;
     title := title c; sortDirections := d;
     column_sorter := column_sorter c; aliasDataIndex := aliasDataIndex c;
     render := render c; onCell := onCell c |}.

Definition set_render (r : Render) (c : ColumnProps) : ColumnProps :=
  {| dataIndex := dataIndex c; width := width c; ellipsis := ellipsis c;
     title := title c; sortDirections := sortDirections c;
     column_sorter := column_sorter c; aliasDataIndex := aliasDataIndex c;
     render := r; onCell := onCell c |}.

Definition set_onCell (o : OnCell) (c : ColumnProps) : ColumnProps :=
  {| dataIndex := dataIndex c; width := width c; ellipsis := ellipsis c;
     title := title c; sortDirections := sortDirections c;
     column_sorter := column_sorter c; aliasDataIndex := aliasDataIndex c;
     render := render c; onCell := o |}.

(** [column.width = 80] and the like. *)
Definition number (n : Z) : option value := Some (VNum n).

Definition getColumnOperating (column : ColumnProps) : ColumnProps :=
  set_width (number 80) (set_render RenderOperating column).

Definition getColumnOperatingEdit (column : ColumnProps) : ColumnProps :=
  set_width (number 80) (set_render RenderOperatingEdit column).

Definition getColumnOperatingDel (column : ColumnProps) : ColumnProps :=
  set_width (number 80) (set_render RenderOperatingDel column).

Definition getColumnState (column : ColumnProps) : ColumnProps :=
  set_width (number 14) (set_render RenderState column).

Definition getColumnIndex (column : ColumnProps) : ColumnProps :=
  let c1 := set_render RenderIndex column in
  let c2 := if decide (width c1 = None) then set_width (number 20) c1 else c1 in
  let c3 := if decide (ellipsis c2 = None) then set_ellipsis (Some true) c2 else c2 in
  if decide (title c3 = None) then set_title (Some "#") c3 else c3.

(** [if (s)] on an optional string: [undefined] and the empty string are
    the falsy ones. *)
Definition truthy_string (s : option string) : bool :=
  match s with
  | None | Some EmptyString => false
  | Some _ => true
  end.

(** The last branch of the [forEach] of [getColumns]: a data column. *)
Definition getColumnData (column : ColumnProps) : ColumnProps :=
  let c1 :=
    if decide (ellipsis column = None) then set_ellipsis (Some true) column
    else column in
  let c2 :=
    if bool_decide (sortDirections c1 = None)
       && bool_decide (column_sorter c1 = SorterBool true)
    then set_sortDirections (Some ["descend"; "ascend"]) c1 else c1 in
  let c3 :=
    if truthy_string (aliasDataIndex c2)
    then set_render (RenderAlias (default "" (aliasDataIndex c2))) c2 else c2 in
  let c4 := set_onCell OnCellGrid c3 in
  if loose_eq_undefined (width c4) then set_width (number 120) c4 else c4.

(** The body of the [forEach]: the reserved markers first, by string
    identity. *)
Definition getColumn (column : ColumnProps) : ColumnProps :=
  if decide (dataIndex column = Some "$operating") then
    getColumnOperating column
  else if decide (dataIndex column = Some "$operating#edit") then
    getColumnOperatingEdit column
  else if decide (dataIndex column = Some "$operating#del") then
    getColumnOperatingDel column
  else if decide (dataIndex column = Some "$state") then
    getColumnState column
  else if decide (dataIndex column = Some "$index") then
    getColumnIndex column
  else getColumnData column.

Definition getColumns (columns : list ColumnProps) : list ColumnProps :=
  getColumn <$> columns.

(** What a cell shows.  The icons, the marker, the index and the alias are
    the grid's; the rest is the caller's or the toolkit's. *)
Inductive Cell : Type :=
| CellIcons (icons : list Icon)
| CellMarker (shown : bool)
| CellIndex (n : nat)
| CellAlias (v : option value)
| CellCaller
| CellDefault.

(** The call of [column.render(text, record, index)] by the toolkit. *)
Definition render_cell (t : Table) (column : ColumnProps) (record : obj)
    (index : nat) : Cell :=
  match render column with
  | RenderUndefined => CellDefault
  | RenderCaller => CellCaller
  | RenderOperating =>
      CellIcons (getColumnOperatingRender t [IconEdit; IconDelete] record)
  | RenderOperatingEdit =>
      CellIcons (getColumnOperatingRender t [IconEdit] record)
  | RenderOperatingDel => CellIcons [IconDelete]
  | RenderState => CellMarker (getColumnState_render t record)
  | RenderIndex => CellIndex (getColumnIndex_render index)
  | RenderAlias key => CellAlias (get_field record key)
  end.

(** A caller's plain data column bound to [d]. *)
Definition plain_column (d : string) : ColumnProps :=
  {| dataIndex := Some d; width := None; ellipsis := None; title := None;
     sortDirections := None; column_sorter := SorterUndefined;
     aliasDataIndex := None; render := RenderUndefined;
     onCell := OnCellUndefined |}.

(** *** Vocabulary of the further properties *)

(** The five [dataIndex] markers that [getColumns] treats apart. *)
Definition reserved (d : option string) : Prop :=
  d = Some "$operating" ∨ d = Some "$operating#edit"
  ∨ d = Some "$operating#del" ∨ d = Some "$state" ∨ d = Some "$index".

(** A render that is not one of the grid's. *)
Definition caller_render (r : Render) : Prop :=
  r = RenderUndefined ∨ r = RenderCaller.

(** The form entry [kv] sets the field [f]: its key, cut at the first
    semicolon, is [f]. *)
Definition edits_field (f : string) (kv : string * value) : Prop :=
  split_head kv.1 = f.

#[global] Instance edits_field_dec f kv : Decision (edits_field f kv).
Proof. unfold edits_field. apply _. Defined.

(** [rowKey] names a field of the rows, not a member that every object
    inherits: then [key_of] is [record[rowKey]] also on a row without the
    field, where it is [undefined]. *)
Definition plain_rowKey (t : Table) : Prop :=
  rowKey (props t) ∉ Object_prototype.

(** [record[rowKey]] is [undefined]: the row has no such property of its
    own and inherits none. *)
Definition reads_undefined (t : Table) (record : obj) : Prop :=
  key_of t record = None ∧ plain_rowKey t.

(** A row without the [id] field, and a row whose [id] is [null]. *)
Definition keyless_row (n : string) : obj := [("name", VStr n)].

Definition null_key_row : obj := [("id", VNull)].

(** Mounted, with a page of two rows, the first with a [null] key; and the
    same after a click on the edit icon of that row. *)
Definition null_key_table : Table :=
  exec (componentDidMount (Some (page_of_rows [null_key_row; first_row] 2)))
       (new (example_props None)).

Definition null_key_editing : Table :=
  exec (click "$operating" IconEdit null_key_row sample_oracle) null_key_table.

(** A new grid whose caller gave no [event.onSave]. *)
Definition hookless_table : Table :=
  new {| defaultPageSize := 300; defaultParam := None; rowKey := "id";
         event_onSave := false; event_onRow := None; form := true |}.

(** The parameter a [reload] event passes, and the last one passed in a
    sequence of events. *)
Definition reload_param (eo : Event * Oracle) : option dict :=
  match eo.1 with
  | Reload param => param
  | _ => None
  end.

Definition last_reload_param (es : list (Event * Oracle)) : option dict :=
  last (omap reload_param es).

End Table.

(** ** The tree component *)

Module Tree.

(** Objects and arrays are shared: the tree is held in a store, and a node
    or an array is named by its address. *)
Definition ref := positive.

(** [type TreeNodeData]; [children] is the address of the array of the
    children, [None] while the field is absent. *)
Record TreeNodeData : Type := {
  key : string;
  title : string;
  dataRef : option value;
  children : option ref
}.

Record Store : Type := {
  objects : gmap ref TreeNodeData;
  arrays : gmap ref (list ref)
}.

(** A mounted tree: the store and [state.treeData]. *)
Record Tree : Type := {
  store : Store;
  treeData : ref
}.

(** [node.children = a]. *)
Definition set_children (node : TreeNodeData) (a : ref) : TreeNodeData :=
  {| key := key node; title := title node; dataRef := dataRef node;
     children := Some a |}.

(** [[...a]]: a new array with the elements of [a]. *)
Definition clone_array (s : Store) (a : ref) : option (ref * Store) :=
  elements ← arrays s !! a;
  let fresh_ref := fresh (dom (arrays s)) in
  Some (fresh_ref,
        {| objects := objects s; arrays := <[fresh_ref := elements]> (arrays s) |}).

(** [onLoadData], from the point where the promise of [props.loadData] has
    resolved to [children] ([None] for [undefined]); [node] is the address
    of [node.props.dataRef].  The result is [None] where JavaScript throws:
    on an address that names nothing. *)
Definition onLoadData (node : ref) (children : option ref) (t : Tree)
    : option Tree :=
  match children with
  | None => Some t
  | Some a =>
      elements ← arrays (store t) !! a;
      if (0 <? length elements)%nat then
        item ← objects (store t) !! node;
        let s1 := {| objects := <[node := set_children item a]> (objects (store t));
                     arrays := arrays (store t) |} in
        '(root, s2) ← clone_array s1 (treeData t);
        Some {| store := s2; treeData := root |}
      else Some t
  end.

(** The tree after [onLoadData] has attached the array [a] to the node at
    [node], whose fields were [item], and cloned the root array [root]. *)
Definition attached (t : Tree) (node : ref) (item : TreeNodeData) (a : ref)
    (root : list ref) : Tree :=
  let fresh_ref := fresh (dom (arrays (store t))) in
  {| store := {| objects := <[node := set_children item a]> (objects (store t));
                 arrays := <[fresh_ref := root]> (arrays (store t)) |};
     treeData := fresh_ref |}.

Definition leaf (k : string) : TreeNodeData :=
  {| key := k; title := k; dataRef := None; children := None |}.

(** One root node at address 1; the root array at 1; the loader has just
    allocated the nodes 2 and 3 and the arrays 2 (of both) and 3 (empty). *)
Definition sample_tree : Tree :=
  {| store :=
       {| objects := {[ 1%positive := leaf "root"; 2%positive := leaf "a";
                        3%positive := leaf "b" ]};
          arrays := {[ 1%positive := [1%positive];
                       2%positive := [2%positive; 3%positive];
                       3%positive := [] ]} |};
     treeData := 1%positive |}.

(** [componentDidMount], from the point where the promise of
    [loadData(undefined)] has resolved to the array at [loaded]. *)
Definition componentDidMount (loaded : ref) (t : Tree) : Tree :=
  {| store := store t; treeData := loaded |}.

(** An [AntTree.TreeNode] element: its title, its key, the address of the
    node object given as [dataRef], and its children when the element has
    any ([None] for the self-closing form). *)
#[local] Unset Elimination Schemes.
Inductive Element : Type :=
| TreeNode (node_title node_key : string) (node_dataRef : ref)
           (node_children : option (list Element)).
#[local] Set Elimination Schemes.

Definition element_dataRef (e : Element) : ref :=
  match e with TreeNode _ _ r _ => r end.

Definition element_key (e : Element) : string :=
  match e with TreeNode _ k _ _ => k end.

Definition element_title (e : Element) : string :=
  match e with TreeNode x _ _ _ => x end.

(** The title of an item: the hook's when there is one. *)
Definition item_title (onRenderTreeNodeTitle : option (TreeNodeData → string))
    (item : TreeNodeData) : string :=
  match onRenderTreeNodeTitle with
  | Some hook => hook item
  | None => title item
  end.

(** [renderTreeNodes]: one element per item of the array, with the elements
    of its [children] array under it when the field is set.  The recursion
    follows the store, so it is bounded by [fuel]; the result is [None] when
    the fuel runs out or an address names nothing. *)
Fixpoint renderTreeNodes (fuel : nat)
    (onRenderTreeNodeTitle : option (TreeNodeData → string))
    (s : Store) (treeData : ref) : option (list Element) :=
  match fuel with
  | O => None
  | S fuel' =>
      items ← arrays s !! treeData;
      mapM (λ r,
        item ← objects s !! r;
        let title := item_title onRenderTreeNodeTitle item in
        match children item with
        | Some c =>
            sub ← renderTreeNodes fuel' onRenderTreeNodeTitle s c;
            Some (TreeNode title (key item) r (Some sub))
        | None => Some (TreeNode title (key item) r None)
        end) items
  end.

(** No address of the tree names nothing: the root array exists, the
    elements of every array are node objects, and the [children] of every
    node is an array. *)
Definition well_formed (t : Tree) : Prop :=
  is_Some (arrays (store t) !! treeData t)
  ∧ (∀ a l r, arrays (store t) !! a = Some l → r ∈ l →
              is_Some (objects (store t) !! r))
  ∧ (∀ n item a, objects (store t) !! n = Some item →
                 children item = Some a → is_Some (arrays (store t) !! a)).

(** The nodes under the array at [a] nest at most [depth] levels deep (and
    so do not contain themselves). *)
Fixpoint bounded (s : Store) (depth : nat) (a : ref) : Prop :=
  match depth with
  | O => False
  | S depth' =>
      ∃ items, arrays s !! a = Some items
        ∧ Forall (λ r, ∃ item, objects s !! r = Some item
                    ∧ match children item with
                      | Some c => bounded s depth' c
                      | None => True
                      end) items
  end.

Definition element_children (e : Element) : option (list Element) :=
  match e with TreeNode _ _ _ c => c end.

(** The elements of a rendering at every level, parents first. *)
Fixpoint flatten (e : Element) : list Element :=
  match e with
  | TreeNode _ _ _ c =>
      e :: match c with
           | Some l =>
               (fix go (l : list Element) : list Element :=
                  match l with
                  | [] => []
                  | x :: l' => flatten x ++ go l'
                  end) l
           | None => []
           end
  end.

(** The element [e] shows a node object of the store: it carries the key
    of the node, the title the hook gives for it (the node's own without a
    hook), and child elements exactly for the items of the node's
    [children] array, in order, when the node has one. *)
Definition shows (onRenderTreeNodeTitle : option (TreeNodeData → string))
    (s : Store) (e : Element) : Prop :=
  ∃ item, objects s !! element_dataRef e = Some item
    ∧ element_key e = key item
    ∧ element_title e = match onRenderTreeNodeTitle with
                        | Some hook => hook item
                        | None => title item
                        end
    ∧ match children item with
      | Some c => ∃ sub, element_children e = Some sub
                         ∧ arrays s !! c = Some (element_dataRef <$> sub)
      | None => element_children e = None
      end.

(** What a loader returns for a node: new nodes, none of them the node
    itself, with no children yet. *)
Definition new_leaves (s : Store) (node : ref) (elements : list ref) : Prop :=
  Forall (λ r, r ≠ node
               ∧ ∃ item, objects s !! r = Some item ∧ children item = None)
         elements.

(** The body of the [map] of [renderTreeNodes], on the item at [r]. *)
Definition render_item (fuel : nat)
    (onRenderTreeNodeTitle : option (TreeNodeData → string))
    (s : Store) (r : ref) : option Element :=
  item ← objects s !! r;
  let title := item_title onRenderTreeNodeTitle item in
  match children item with
  | Some c =>
      sub ← renderTreeNodes fuel onRenderTreeNodeTitle s c;
      Some (TreeNode title (key item) r (Some sub))
  | None => Some (TreeNode title (key item) r None)
  end.

End Tree.

(** * Properties of the serialisation

    [JSON_stringify] is injective on records: the text can be read back
    unambiguously, a quoted string up to its closing quote, a number up to
    the comma or brace that follows it. *)

Module JsonFacts.

#[local] Arguments String.append : simpl nomatch.

Lemma append_assoc (a b c : string) : (a +:+ b) +:+ c = a +:+ (b +:+ c).
Proof. induction a as [|x a IH]; cbn; [done | by rewrite IH]. Qed.

Lemma append_nil_r (a : string) : a +:+ "" = a.
Proof. induction a as [|x a IH]; cbn; [done | by rewrite IH]. Qed.

Lemma string_cons_inj (c : ascii) (s1 s2 : string) :
  String c s1 = String c s2 → s1 = s2.
Proof. congruence. Qed.

(** ** Quoted strings *)

(** Reading back one escaped character. *)
Lemma unescape_escape_char (c : ascii) (r : string) :
  unescape_char (escape_char c +:+ r) = Some (c, r).
Proof. destruct c as [[] [] [] [] [] [] [] []]; reflexivity. Qed.

(** An escaped string up to its closing quote determines the string and
    what follows the quote. *)
Lemma escape_quote_inj (s1 s2 r1 r2 : string) :
  escape s1 +:+ String quote_char r1 = escape s2 +:+ String quote_char r2 →
  s1 = s2 ∧ r1 = r2.
Proof.
  revert s2. induction s1 as [|c1 s1 IH]; intros [|c2 s2] H; cbn in H.
  - by injection H.
  - apply (f_equal unescape_char) in H.
    rewrite append_assoc, unescape_escape_char in H. done.
  - apply (f_equal unescape_char) in H.
    rewrite append_assoc, unescape_escape_char in H. done.
  - apply (f_equal unescape_char) in H.
    rewrite !append_assoc, !unescape_escape_char in H.
    injection H as -> H. by destruct (IH _ H) as [-> ->].
Qed.

Lemma quote_append (s r : string) :
  quote s +:+ r = String quote_char (escape s +:+ String quote_char r).
Proof. unfold quote. cbn. by rewrite append_assoc. Qed.

Lemma quote_inj (s1 s2 r1 r2 : string) :
  quote s1 +:+ r1 = quote s2 +:+ r2 → s1 = s2 ∧ r1 = r2.
Proof.
  rewrite !quote_append. intros H. injection H as H.
  by apply escape_quote_inj.
Qed.

(** ** Numbers *)

Lemma all_digits_app (a b : string) :
  all_digits (a +:+ b) = all_digits a && all_digits b.
Proof.
  induction a as [|c a IH]; simpl; [done|].
  by rewrite IH, andb_assoc.
Qed.

Lemma pretty_N_char_digit (x : N) : is_digit (pretty_N_char x) = true.
Proof. unfold pretty_N_char. by repeat case_match. Qed.

(** The decimal printer writes digits in front of its accumulator. *)
Lemma pretty_N_go_digits (x : N) (s : string) :
  ∃ d, pretty_N_go x s = d +:+ s ∧ all_digits d = true.
Proof.
  revert s. induction (N.lt_wf_0 x) as [x _ IH]; intros s.
  destruct (decide (x = 0)%N) as [->|Hx].
  { exists "". by rewrite pretty_N_go_0. }
  rewrite pretty_N_go_step by lia.
  destruct (IH (x `div` 10)%N) with
    (s := String (pretty_N_char (x `mod` 10)) s) as (d & -> & Hd).
  { apply N.div_lt; lia. }
  exists (d +:+ String (pretty_N_char (x `mod` 10)) "").
  rewrite append_assoc. split; [done|].
  rewrite all_digits_app, Hd. simpl.
  by rewrite pretty_N_char_digit.
Qed.

Lemma pretty_N_digits (x : N) : all_digits (pretty x) = true.
Proof.
  unfold pretty, pretty_N. case_decide; [done|].
  destruct (pretty_N_go_digits x "") as (d & -> & Hd).
  by rewrite append_nil_r.
Qed.

(** A number is an optional minus sign and digits. *)
Lemma pretty_Z_shape (z : Z) :
  ∃ d, all_digits d = true ∧ (pretty z = d ∨ pretty z = String "-" d).
Proof.
  destruct z as [|p|p]; unfold pretty, pretty_Z.
  - exists "0". by split; [|left].
  - exists (pretty (N.pos p)). split; [apply pretty_N_digits | by left].
  - exists (pretty (N.pos p)). split; [apply pretty_N_digits | by right].
Qed.

Lemma digits_terminated_inj (d1 d2 r1 r2 : string) :
  all_digits d1 = true → all_digits d2 = true →
  terminated r1 → terminated r2 →
  d1 +:+ r1 = d2 +:+ r2 → d1 = d2 ∧ r1 = r2.
Proof.
  revert d2. induction d1 as [|c1 d1 IH]; intros [|c2 d2] H1 H2 T1 T2 H;
    simpl in *.
  - done.
  - subst r1. apply andb_true_iff in H2 as [H2 _].
    by destruct T1 as [-> | ->].
  - subst r2. apply andb_true_iff in H1 as [H1 _].
    by destruct T2 as [-> | ->].
  - injection H as -> H.
    apply andb_true_iff in H1 as [_ H1]. apply andb_true_iff in H2 as [_ H2].
    by destruct (IH _ H1 H2 T1 T2 H) as [-> ->].
Qed.

Lemma minus_not_digits (d1 d2 r1 r2 : string) :
  all_digits d2 = true → terminated r2 →
  String "-" d1 +:+ r1 ≠ d2 +:+ r2.
Proof.
  intros H2 T2 H. destruct d2 as [|c d2]; simpl in *.
  - subst r2. by destruct T2.
  - injection H as <- _. done.
Qed.

Lemma pretty_Z_terminated_inj (z1 z2 : Z) (r1 r2 : string) :
  terminated r1 → terminated r2 →
  pretty z1 +:+ r1 = pretty z2 +:+ r2 → z1 = z2 ∧ r1 = r2.
Proof.
  intros T1 T2 H.
  destruct (pretty_Z_shape z1) as (d1 & Hd1 & [E1|E1]),
           (pretty_Z_shape z2) as (d2 & Hd2 & [E2|E2]);
    rewrite E1, E2 in H.
  - destruct (digits_terminated_inj _ _ _ _ Hd1 Hd2 T1 T2 H) as [Hd ->].
    split; [|done]. apply (inj pretty). congruence.
  - symmetry in H. by apply minus_not_digits in H.
  - by apply minus_not_digits in H.
  - simpl in H. injection H as H.
    destruct (digits_terminated_inj _ _ _ _ Hd1 Hd2 T1 T2 H) as [Hd ->].
    split; [|done]. apply (inj pretty). congruence.
Qed.

(** The first character of a number followed by a terminator. *)
Lemma pretty_Z_head (z : Z) (r : string) :
  terminated r →
  match pretty z +:+ r with
  | EmptyString => True
  | String c _ =>
      is_digit c = true ∨ c = "-"%char ∨ c = ","%char ∨ c = "}"%char
  end.
Proof.
  intros T. destruct (pretty_Z_shape z) as (d & Hd & [-> | ->]).
  - destruct d as [|c d]; simpl in *.
    + destruct r; [done|]. destruct T; auto.
    + apply andb_true_iff in Hd as [Hd _]. auto.
  - simpl. auto.
Qed.

(** ** Values, members, records *)

Lemma stringify_value_inj (v1 v2 : value) (r1 r2 : string) :
  terminated r1 → terminated r2 →
  stringify_value v1 +:+ r1 = stringify_value v2 +:+ r2 →
  v1 = v2 ∧ r1 = r2.
Proof.
  intros T1 T2 H.
  destruct v1 as [|[]|z1|s1], v2 as [|[]|z2|s2]; simpl in H;
    try discriminate;
    try (by injection H as ->);
    try (pose proof (pretty_Z_head z1 r1 T1) as Hh; rewrite H in Hh;
         by destruct Hh as [?|[?|[?|?]]]);
    try (pose proof (pretty_Z_head z2 r2 T2) as Hh; rewrite <- H in Hh;
         by destruct Hh as [?|[?|[?|?]]]).
  - by destruct (pretty_Z_terminated_inj z1 z2 r1 r2 T1 T2 H) as [-> ->].
  - injection H as H. rewrite !append_assoc in H. simpl in H.
    by destruct (escape_quote_inj s1 s2 r1 r2 H) as [-> ->].
Qed.

Lemma stringify_member_inj (m1 m2 : string * value) (r1 r2 : string) :
  terminated r1 → terminated r2 →
  stringify_member m1 +:+ r1 = stringify_member m2 +:+ r2 →
  m1 = m2 ∧ r1 = r2.
Proof.
  destruct m1 as [k1 v1], m2 as [k2 v2]. unfold stringify_member.
  cbn [fst snd]. intros T1 T2 H. rewrite !append_assoc in H.
  apply quote_inj in H as [-> H]. simpl in H. injection H as H.
  by destruct (stringify_value_inj v1 v2 r1 r2 T1 T2 H) as [-> ->].
Qed.

Lemma stringify_members_inj (o1 o2 : obj) (r1 r2 : string) :
  stringify_members o1 +:+ String "}" r1
  = stringify_members o2 +:+ String "}" r2 →
  o1 = o2 ∧ r1 = r2.
Proof.
  revert o2. induction o1 as [|m1 o1 IH]; intros [|m2 o2] H.
  - simpl in H. by injection H.
  - cbn [stringify_members] in H. unfold stringify_member in H.
    rewrite !append_assoc, quote_append in H. simpl in H. discriminate.
  - cbn [stringify_members] in H. unfold stringify_member in H.
    rewrite !append_assoc, quote_append in H. simpl in H. discriminate.
  - cbn [stringify_members] in H. rewrite !append_assoc in H.
    apply stringify_member_inj in H as [-> H].
    + destruct o1 as [|m1' o1], o2 as [|m2' o2].
      * simpl in H. by injection H as ->.
      * simpl in H. discriminate.
      * simpl in H. discriminate.
      * change (String "," (stringify_members (m1' :: o1) +:+ String "}" r1)
                = String "," (stringify_members (m2' :: o2) +:+ String "}" r2))
          in H.
        apply string_cons_inj in H. by destruct (IH _ H) as [-> ->].
    + destruct o1; simpl; auto.
    + destruct o2; simpl; auto.
Qed.

(** Two records with the same serialisation are the same record: the same
    fields, in the same order, with the same values. *)
Lemma JSON_stringify_inj (o1 o2 : obj) :
  JSON_stringify o1 = JSON_stringify o2 → o1 = o2.
Proof.
  unfold JSON_stringify. intros H. simpl in H. injection H as H.
  by destruct (stringify_members_inj o1 o2 "" "" H).
Qed.

(** So the comparison of the serialisations in the per-cell save is the
    comparison of the full values. *)
Lemma JSON_stringify_eqb (o1 o2 : obj) :
  String.eqb (JSON_stringify o1) (JSON_stringify o2) = bool_decide (o1 = o2).
Proof.
  case_bool_decide as Ho.
  - subst. apply String.eqb_refl.
  - apply String.eqb_neq. intros H. by apply Ho, JSON_stringify_inj.
Qed.

End JsonFacts.

(** * Properties of the grid *)

Module TableFacts.

Import Table JsonFacts.

(** ** Handlers in one step *)

(** Unfolds a handler down to the pairs it computes. *)
Ltac run_handler :=
  unfold exec, calls, result, handle, click, reload, componentDidMount,
    onChange, requestLoadData, editStash, delete_onClick, check_onClick,
    edit_onClick, undo_onClick, cell_onSave, set_update,
    setState_loading, setState_loaded, setState_dataSource,
    setState_editingKey, set_REQUEST_PARAM, set_dataSourceState,
    this, emit, modify, ret, mret, mbind, M_ret, M_bind;
  cbn.

Lemma forEach_emit_exec (f : EditorCell → effect) (l : list EditorCell) (t : Table) :
  forEach (λ c, emit (f c)) l t = (tt, t, f <$> l).
Proof.
  induction l as [|c l IH]; [done|].
  cbn [forEach]. unfold mbind, M_bind, emit at 1. rewrite IH. done.
Qed.

Lemma editStash_exec (t : Table) :
  exec editStash t =
    if forallb hide_fulfils (currentEditorCell t)
    then {| props := props t; state := state t;
            REQUEST_PARAM := REQUEST_PARAM t; dataSourceState := no_diff;
            currentEditorCell := currentEditorCell t |}
    else t.
Proof.
  unfold exec, editStash, mbind, M_bind, this.
  rewrite forEach_emit_exec.
  destruct (forallb _ _); done.
Qed.

Lemma forEach_emit_run (f : EditorCell → effect) (l : list EditorCell) (t : Table) :
  forEach (λ c t', (tt, t', [f c])) l t = (tt, t, f <$> l).
Proof. apply (forEach_emit_exec f l t). Qed.

(** [requestLoadData] in one step: the state, and the calls made. *)
Lemma requestLoadData_run (t : Table) page pageSize param sorter resp :
  requestLoadData page pageSize param sorter resp t =
    (tt,
     match resp with
     | Some r =>
         exec editStash
           (with_state (λ s,
              {| dataSource := resp_dataSource r; total := resp_total r;
                 loading := false; page := Table.page s;
                 pageSize := Table.pageSize s; sorter := Table.sorter s;
                 editingKey := editingKey s |}) t)
     | None =>
         with_state (λ s,
           {| dataSource := dataSource s; total := total s; loading := true;
              page := Table.page s; pageSize := Table.pageSize s;
              sorter := Table.sorter s; editingKey := editingKey s |}) t
     end,
     CallLoadData {|
       req_page := page; req_pageSize := pageSize;
       req_param := spread_all [param; defaultParam (props t);
                                Some (REQUEST_PARAM t)];
       req_sorter := sorter |} ::
     match resp with
     | Some _ => CallCellOnSave <$> currentEditorCell t
     | None => []
     end).
Proof.
  destruct resp as [r|].
  - unfold requestLoadData, exec, editStash, mbind, M_bind, this,
      setState_loading, setState_loaded, emit, modify, set_dataSourceState, ret, mret, M_ret.
    cbn. rewrite !forEach_emit_run. cbn.
    destruct (forallb _ _); cbn; rewrite ?app_nil_r; destruct t as [? [] ? ? ?]; try done.
  - run_handler. destruct t as [? [] ? ? ?]; done.
Qed.

(** [reload] stores the parameter, if any, and requests. *)
Lemma reload_run (t : Table) param resp :
  reload param resp t =
    requestLoadData (page (state t))
      (or_number (pageSize (state t)) (defaultPageSize (props t)))
      param (sorter (state t)) resp
      (with_REQUEST_PARAM (default (REQUEST_PARAM t) param) t).
Proof.
  unfold reload. destruct param as [p|]; cbn.
  - unfold mbind, M_bind, set_REQUEST_PARAM, modify, this. cbn.
    destruct (requestLoadData _ _ _ _ _ _) as [[[] t2] e2]. done.
  - unfold mbind, M_bind, ret, mret, M_ret, this. cbn.
    destruct t; cbn.
    destruct (requestLoadData _ _ _ _ _ _) as [[[] t2] e2]. done.
Qed.

(** ** Query parameters *)

(** The three-layer spread as unions ([∪] keeps the left value). *)
Lemma spread_all_3 (a b c : option dict) :
  spread_all [a; b; c] = default ∅ c ∪ default ∅ b ∪ default ∅ a.
Proof.
  unfold spread_all. cbn.
  destruct a, b, c; cbn;
    rewrite ?(right_id_L ∅ (∪)), ?(left_id_L ∅ (∪)), ?(assoc_L (∪)); done.
Qed.

Lemma union_absorb_outer (p d : dict) : p ∪ d ∪ p = p ∪ d.
Proof.
  apply map_eq. intros k. rewrite !lookup_union.
  destruct (p !! k), (d !! k); done.
Qed.

(** C1, as amended.  A reload with an ad-hoc parameter object [p] calls the
    loader with the merge of the static default parameter and [p], and [p]
    wins on every key the two share.  The request parameter stored before
    the call takes no part: [reload] replaces it by [p] before merging. *)
Theorem reload_param_layers (t : Table) (p : dict) resp :
  let merged := p ∪ default ∅ (defaultParam (props t)) in
  requested_param (calls (reload (Some p) resp) t) = Some merged
  ∧ (∀ k v, p !! k = Some v → merged !! k = Some v)
  ∧ (∀ k, p !! k = None →
          merged !! k = default ∅ (defaultParam (props t)) !! k).
Proof.
  cbn zeta. split; [|split].
  - unfold calls. rewrite reload_run, requestLoadData_run. cbn -[spread_all].
    rewrite spread_all_3. cbn. by rewrite union_absorb_outer.
  - intros k v Hk. by apply lookup_union_Some_l.
  - intros k Hk. by apply lookup_union_r.
Qed.

(** C1 as stated fails on its own example: with default [{a:1, b:2}],
    stored request parameter [{b:3}] and ad-hoc parameter [{c:4}], the
    loader is not called with [{a:1, b:3, c:4}]. *)
Lemma reload_param_layers_counterexample :
  requested_param (calls (reload (Some {[ "c" := VNum 4 ]}) None) layered_table)
  ≠ Some {[ "a" := VNum 1; "b" := VNum 3; "c" := VNum 4 ]}.
Proof.
  intros H.
  apply (f_equal (λ o : option dict, o ≫= (λ d, d !! "b"))) in H.
  vm_compute in H. discriminate.
Qed.

(** What the loader is called with on that example: [{a:1, b:2, c:4}]. *)
Example reload_param_layers_example :
  requested_param (calls (reload (Some {[ "c" := VNum 4 ]}) None) layered_table)
  = Some {[ "a" := VNum 1; "b" := VNum 2; "c" := VNum 4 ]}.
Proof.
  vm_compute. reflexivity.
Qed.

(** ** Loading *)

Lemma requestLoadData_frame (t : Table) page pageSize param sorter resp :
  let t' := exec (requestLoadData page pageSize param sorter resp) t in
  props t' = props t ∧ REQUEST_PARAM t' = REQUEST_PARAM t
  ∧ currentEditorCell t' = currentEditorCell t
  ∧ editingKey (state t') = editingKey (state t).
Proof.
  cbn zeta. unfold exec at 1 2 3 4. rewrite requestLoadData_run. cbn.
  destruct resp as [r|]; [|done].
  rewrite editStash_exec. cbn. destruct (forallb _ _); done.
Qed.

Lemma requestLoadData_pending (t : Table) page pageSize param sorter :
  let t' := exec (requestLoadData page pageSize param sorter None) t in
  loading (state t') = true
  ∧ dataSource (state t') = dataSource (state t)
  ∧ total (state t') = total (state t)
  ∧ dataSourceState t' = dataSourceState t.
Proof. cbn zeta. unfold exec. rewrite requestLoadData_run. done. Qed.

Lemma requestLoadData_loaded (t : Table) page pageSize param sorter r :
  let t' := exec (requestLoadData page pageSize param sorter (Some r)) t in
  loading (state t') = false
  ∧ dataSource (state t') = resp_dataSource r
  ∧ total (state t') = resp_total r
  ∧ dataSourceState t' =
      if forallb hide_fulfils (currentEditorCell t) then no_diff
      else dataSourceState t.
Proof.
  cbn zeta. unfold exec at 1 2 3 4. rewrite requestLoadData_run. cbn.
  rewrite editStash_exec. cbn. destruct (forallb _ _); done.
Qed.

(** C10.  After [reload(p)] the stored request parameter is [p] itself, so
    a key that [p] lacks is gone whatever was stored before, and the next
    [reload()] merges [p] with the default parameter.  [reload()] leaves
    the stored parameter as it was and merges it with the default one. *)
Theorem reload_stores_param (t : Table) (p : dict) resp resp' :
  let t' := exec (reload (Some p) resp) t in
  REQUEST_PARAM t' = p
  ∧ (∀ k, p !! k = None → REQUEST_PARAM t' !! k = None)
  ∧ requested_param (calls (reload None resp') t')
    = Some (p ∪ default ∅ (defaultParam (props t)))
  ∧ REQUEST_PARAM (exec (reload None resp) t) = REQUEST_PARAM t
  ∧ requested_param (calls (reload None resp) t)
    = Some (REQUEST_PARAM t ∪ default ∅ (defaultParam (props t))).
Proof.
  cbn zeta.
  assert (Hp : REQUEST_PARAM (exec (reload (Some p) resp) t) = p).
  { unfold exec. rewrite reload_run.
    apply (requestLoadData_frame (with_REQUEST_PARAM p t)). }
  assert (Hprops : props (exec (reload (Some p) resp) t) = props t).
  { unfold exec. rewrite reload_run.
    apply (requestLoadData_frame (with_REQUEST_PARAM p t)). }
  assert (Hnone : ∀ t0 : Table,
    requested_param (calls (reload None resp') t0)
    = Some (REQUEST_PARAM t0 ∪ default ∅ (defaultParam (props t0)))).
  { intros t0. unfold calls. rewrite reload_run, requestLoadData_run.
    cbn -[spread_all]. rewrite spread_all_3. cbn.
    by rewrite (right_id_L ∅ (∪)). }
  repeat split.
  - exact Hp.
  - intros k Hk. by rewrite Hp.
  - by rewrite Hnone, Hp, Hprops.
  - unfold exec. rewrite reload_run.
    apply (requestLoadData_frame (with_REQUEST_PARAM (REQUEST_PARAM t) t)).
  - unfold calls. rewrite reload_run, requestLoadData_run.
    cbn -[spread_all]. rewrite spread_all_3. cbn.
    by rewrite (right_id_L ∅ (∪)).
Qed.





(** C4, as amended.  From a state with staged edits, once the promise of
    [loadData] has resolved after a reload, and the editor cells that were
    asked to hide have done so, the three collections are empty. *)
Theorem reload_clears_diffs (t : Table) param r :
  editStatus t = true →
  all_hide_fulfil t →
  let t' := exec (reload param (Some r)) t in
  update (dataSourceState t') = []
  ∧ delete_ (dataSourceState t') = []
  ∧ create (dataSourceState t') = []
  ∧ editStatus t' = false.
Proof.
  intros _ Hhide. cbn zeta. unfold exec, editStatus.
  rewrite reload_run.
  destruct (requestLoadData_loaded
    (with_REQUEST_PARAM (default (REQUEST_PARAM t) param) t)
    (page (state t))
    (or_number (pageSize (state t)) (defaultPageSize (props t)))
    param (sorter (state t)) r) as (_ & _ & _ & Hdiff).
  unfold exec in Hdiff. rewrite Hdiff. cbn.
  unfold all_hide_fulfil in Hhide. rewrite Hhide. done.
Qed.

Lemma reload_clears_diffs_witness :
  editStatus staged_table = true
  ∧ all_hide_fulfil staged_table
  ∧ update (dataSourceState
      (exec (reload None (Some (page_of_rows [edited_row] 1))) staged_table))
    = [].
Proof.
  split; [reflexivity|]. split; [reflexivity|].
  apply (reload_clears_diffs staged_table None (page_of_rows [edited_row] 1));
    reflexivity.
Defined.

(** C4 as stated fails when an editor cell does not hide: the load has
    resolved, and the staged update is still there. *)
Lemma reload_clears_diffs_counterexample :
  editStatus stuck_table = true
  ∧ loading (state (exec (reload None (Some (page_of_rows [first_row] 1)))
                         stuck_table)) = false
  ∧ dataSource (state (exec (reload None (Some (page_of_rows [first_row] 1)))
                            stuck_table)) = [first_row]
  ∧ update (dataSourceState
      (exec (reload None (Some (page_of_rows [first_row] 1))) stuck_table))
    = [edited_row]
  ∧ editStatus (exec (reload None (Some (page_of_rows [first_row] 1)))
                     stuck_table) = true.
Proof. repeat split; reflexivity. Qed.

(** ** The save paths *)

Lemma delete_onClick_run (t : Table) record rs resp :
  delete_onClick record rs resp t =
    if event_onSave (props t) then
      if neq_false rs
      then (tt, exec (reload None resp) t,
            CallOnSave record DELETE :: calls (reload None resp) t)
      else (tt, t, [CallOnSave record DELETE])
    else (tt, t, []).
Proof.
  unfold delete_onClick, mbind, M_bind, this, exec, calls.
  destruct (event_onSave (props t)); [|done].
  unfold emit. destruct (neq_false rs); [|done].
  destruct (reload None resp t) as [[[] t2] e2]. done.
Qed.

Lemma check_onClick_run (t : Table) record err values rs :
  check_onClick record err values rs t =
    if event_onSave (props t) && form (props t) && negb err then
      (tt, if neq_false rs then with_editingKey None t else t,
       [CallOnSave (merged_record record values) UPDATE])
    else (tt, t, []).
Proof.
  unfold check_onClick, mbind, M_bind, this.
  destruct (event_onSave (props t) && form (props t)); [|done].
  destruct err; [done|]. cbn.
  destruct (neq_false rs); done.
Qed.

Lemma cell_onSave_run (t : Table) values rs :
  cell_onSave values rs t =
    (if event_onSave (props t) then bool_of_resp rs else true,
     saved_table t values,
     if event_onSave (props t) then [CallOnSave values UPDATE] else []).
Proof.
  unfold cell_onSave, saved_table, update_onSave, mbind, M_bind, this,
    set_update, set_dataSourceState, setState_dataSource, modify, with_state,
    emit, ret, mret, M_ret.
  destruct (0 <? length _)%nat; cbn;
    destruct (event_onSave (props t)); cbn; try done;
    destruct rs; done.
Qed.

(** C6.  With a save hook, the delete icon calls it with the record and
    [DELETE].  When the hook resolves to [true] or to [undefined], the next
    call is the [loadData] of [reload()], for the page, the page size, the
    sorter and the parameters of the grid, and the component afterwards is
    the one [reload()] gives: the dataset and the total are untouched
    while the load is pending, and are those of the response once it has
    resolved.  When the hook resolves to [false] nothing else happens. *)
Theorem delete_is_not_optimistic (t : Table) record rs resp r :
  event_onSave (props t) = true →
  head (calls (delete_onClick record rs resp) t)
    = Some (CallOnSave record DELETE)
  ∧ (rs ≠ RespFalse →
     exec (delete_onClick record rs resp) t = exec (reload None resp) t
     ∧ calls (delete_onClick record rs resp) t
       = CallOnSave record DELETE :: calls (reload None resp) t
     ∧ calls (delete_onClick record rs resp) t !! 1%nat
       = Some (CallLoadData
                 {| req_page := page (state t);
                    req_pageSize := or_number (pageSize (state t))
                                              (defaultPageSize (props t));
                    req_param := REQUEST_PARAM t
                                 ∪ default ∅ (defaultParam (props t));
                    req_sorter := sorter (state t) |})
     ∧ dataSource (state (exec (delete_onClick record rs (Some r)) t))
       = resp_dataSource r
     ∧ total (state (exec (delete_onClick record rs (Some r)) t))
       = resp_total r)
  ∧ (rs = RespFalse →
     delete_onClick record rs resp t = (tt, t, [CallOnSave record DELETE]))
  ∧ dataSource (state (exec (delete_onClick record rs None) t))
    = dataSource (state t)
  ∧ total (state (exec (delete_onClick record rs None) t)) = total (state t)
  ∧ dataSource (state (exec (reload None None) t)) = dataSource (state t)
  ∧ total (state (exec (reload None None) t)) = total (state t)
  ∧ dataSource (state (exec (reload None (Some r)) t)) = resp_dataSource r
  ∧ total (state (exec (reload None (Some r)) t)) = resp_total r.
Proof.
  intros Hhook.
  assert (Hrun := λ resp0, delete_onClick_run t record rs resp0).
  rewrite Hhook in Hrun.
  assert (Hreload : ∀ resp0,
    head (calls (reload None resp0) t)
    = Some (CallLoadData
              {| req_page := page (state t);
                 req_pageSize := or_number (pageSize (state t))
                                           (defaultPageSize (props t));
                 req_param := REQUEST_PARAM t
                              ∪ default ∅ (defaultParam (props t));
                 req_sorter := sorter (state t) |})).
  { intros resp0. unfold calls. rewrite reload_run, requestLoadData_run.
    cbn -[spread_all]. rewrite spread_all_3. cbn.
    by rewrite (right_id_L ∅ (∪)). }
  assert (Hpending :
    dataSource (state (exec (reload None None) t)) = dataSource (state t)
    ∧ total (state (exec (reload None None) t)) = total (state t)).
  { unfold exec. rewrite reload_run.
    destruct (requestLoadData_pending
      (with_REQUEST_PARAM (default (REQUEST_PARAM t) None) t)
      (page (state t))
      (or_number (pageSize (state t)) (defaultPageSize (props t)))
      None (sorter (state t))) as (_ & Hds & Htot & _).
    done. }
  assert (Hloaded :
    dataSource (state (exec (reload None (Some r)) t)) = resp_dataSource r
    ∧ total (state (exec (reload None (Some r)) t)) = resp_total r).
  { unfold exec. rewrite reload_run.
    destruct (requestLoadData_loaded
      (with_REQUEST_PARAM (default (REQUEST_PARAM t) None) t)
      (page (state t))
      (or_number (pageSize (state t)) (defaultPageSize (props t)))
      None (sorter (state t)) r) as (_ & Hds & Htot & _).
    done. }
  split.
  { unfold calls. rewrite Hrun. destruct (neq_false rs); done. }
  split.
  { intros Hrs.
    assert (Hsuccess : ∀ resp0,
      delete_onClick record rs resp0 t
      = (tt, exec (reload None resp0) t,
         CallOnSave record DELETE :: calls (reload None resp0) t)).
    { intros resp0. rewrite Hrun. by destruct rs. }
    split. { unfold exec at 1. by rewrite Hsuccess. }
    split. { unfold calls at 1. by rewrite Hsuccess. }
    split.
    { unfold calls at 1. rewrite Hsuccess. cbn [snd].
      change ((CallOnSave record DELETE :: calls (reload None resp) t) !! 1%nat)
        with (calls (reload None resp) t !! 0%nat).
      rewrite <- head_lookup. apply Hreload. }
    split.
    - unfold exec at 1. rewrite Hsuccess. apply Hloaded.
    - unfold exec at 1. rewrite Hsuccess. apply Hloaded. }
  split.
  { intros ->. by rewrite Hrun. }
  split.
  { unfold exec at 1. rewrite Hrun. destruct rs; cbn [neq_false fst snd];
      first [apply Hpending | done]. }
  split.
  { unfold exec at 1. rewrite Hrun. destruct rs; cbn [neq_false fst snd];
      first [apply Hpending | done]. }
  split; [apply Hpending|]. split; [apply Hpending|]. exact Hloaded.
Qed.

Lemma delete_is_not_optimistic_witness :
  event_onSave (props loaded_table) = true
  ∧ calls (delete_onClick first_row RespTrue (Some (page_of_rows [] 0)))
          loaded_table !! 1%nat
    = Some (CallLoadData {| req_page := 1; req_pageSize := 300;
                            req_param := ∅; req_sorter := None |})
  ∧ dataSource (state (exec (delete_onClick first_row RespTrue
                               (Some (page_of_rows [] 0))) loaded_table))
    = [].
Proof.
  split; [reflexivity|].
  destruct (delete_is_not_optimistic loaded_table first_row RespTrue
              (Some (page_of_rows [] 0)) (page_of_rows [] 0) eq_refl)
    as (_ & Hsuccess & _).
  destruct (Hsuccess ltac:(discriminate)) as (_ & _ & Hcall & Hds & _).
  split; [exact Hcall | exact Hds].
Defined.

(** C3, as amended.  On the three save paths a hook that resolves to
    [undefined] gives exactly the transition of one that resolves to
    [true], which is the transition of a success: the per-cell save
    returns [true] to the cell; the confirm icon, when there is a hook, a
    form and no validation error, calls the hook once and takes the row out
    of edit mode; the delete icon, when there is a hook, calls it and then
    reloads, starting with a [loadData] call.  When the hook resolves to
    [false], the confirm icon leaves the component as it was (the row stays
    in edit mode) and the delete icon leaves it as it was and calls no
    loader.  The per-cell save has written the dataset snapshot and the
    [update] entry before it calls the hook: it returns [false] to the
    cell, and the component is the one a successful save gives. *)
Theorem save_hook_results (t : Table) record values err resp :
  cell_onSave values RespUndefined t = cell_onSave values RespTrue t
  ∧ check_onClick record err values RespUndefined t
    = check_onClick record err values RespTrue t
  ∧ delete_onClick record RespUndefined resp t
    = delete_onClick record RespTrue resp t
  ∧ result (cell_onSave values RespTrue) t = true
  ∧ check_onClick record err values RespTrue t
    = (if event_onSave (props t) && form (props t) && negb err
       then (tt, with_editingKey None t,
             [CallOnSave (merged_record record values) UPDATE])
       else (tt, t, []))
  ∧ editingKey (state (with_editingKey None t)) = None
  ∧ delete_onClick record RespTrue resp t
    = (if event_onSave (props t)
       then (tt, exec (reload None resp) t,
             CallOnSave record DELETE :: calls (reload None resp) t)
       else (tt, t, []))
  ∧ (∃ req, head (calls (reload None resp) t) = Some (CallLoadData req))
  ∧ exec (check_onClick record err values RespFalse) t = t
  ∧ exec (delete_onClick record RespFalse resp) t = t
  ∧ calls (delete_onClick record RespFalse resp) t
    = (if event_onSave (props t) then [CallOnSave record DELETE] else [])
  ∧ result (cell_onSave values RespFalse) t = negb (event_onSave (props t))
  ∧ exec (cell_onSave values RespFalse) t = saved_table t values
  ∧ exec (cell_onSave values RespTrue) t = saved_table t values.
Proof.
  assert (Hreload : ∃ req,
    head (calls (reload None resp) t) = Some (CallLoadData req)).
  { unfold calls. rewrite reload_run, requestLoadData_run. eauto. }
  unfold exec, calls, result.
  rewrite !cell_onSave_run, !check_onClick_run, !delete_onClick_run. cbn.
  destruct (event_onSave (props t)), (form (props t)), err; done.
Qed.

(** C3 as stated fails on the per-cell path: with a hook that resolves to
    [false], the edited row is in [update] and in the dataset. *)
Lemma save_hook_results_counterexample :
  update (dataSourceState loaded_table) = []
  ∧ update (dataSourceState (exec (cell_onSave edited_row RespFalse) loaded_table))
    = [edited_row]
  ∧ dataSource (state (exec (cell_onSave edited_row RespFalse) loaded_table))
    = [edited_row]
  ∧ exec (cell_onSave edited_row RespFalse) loaded_table ≠ loaded_table.
Proof.
  repeat split; try reflexivity.
  intros H. apply (f_equal (λ t, update (dataSourceState t))) in H.
  vm_compute in H. discriminate.
Qed.

(** ** The [$index] column *)

Lemma imap_index {A B} (f : nat → B) (l : list A) (n : nat) :
  imap (λ i _, f (n + i)%nat) l = f <$> seq n (length l).
Proof.
  revert n. induction l as [|x l IH]; intros n; [done|].
  cbn. rewrite Nat.add_0_r. f_equal.
  rewrite <- IH. apply imap_ext. intros i y _. cbn. f_equal. lia.
Qed.

Lemma index_column_seq (t : Table) :
  index_column t = seq 1 (length (dataSource (state t))).
Proof.
  unfold index_column, render_rows, getColumnIndex_render.
  rewrite (imap_ext _ (λ i _, (λ j, j + 1)%nat (0 + i)%nat)) by done.
  rewrite (imap_index (λ j, j + 1)%nat).
  rewrite <- fmap_S_seq. apply list_fmap_ext. intros; lia.
Qed.

(** C8.  Whatever page and page size were requested, the [$index] column
    of the rows of the loaded page reads 1, 2, ... up to their number: row
    [i] of the page (from 0) shows [i + 1]. *)
Theorem index_column_is_page_local (t : Table) current size field order r :
  let t' := exec (onChange current size field order (Some r)) t in
  index_column t' = seq 1 (length (resp_dataSource r))
  ∧ (∀ i, index_column t' !! i
          = (λ _, (i + 1)%nat) <$> (resp_dataSource r !! i)).
Proof.
  cbn zeta.
  assert (Hds : dataSource (state (exec (onChange current size field order (Some r)) t))
                = resp_dataSource r).
  { apply (requestLoadData_loaded t current size None
             (Some {| name := field; order := order |}) r). }
  rewrite index_column_seq, Hds. split; [done|].
  intros i. destruct (resp_dataSource r !! i) as [x|] eqn:Hi; cbn.
  - apply lookup_lt_Some in Hi. rewrite lookup_seq_lt by done. f_equal; lia.
  - apply lookup_ge_None in Hi. by rewrite lookup_seq_ge.
Qed.

(** Page 3 with page size 10: the ten rows read 1 to 10. *)
Example index_column_page_3 :
  index_column
    (exec (onChange 3 10 "id" "ascend" (Some (page_of_rows ten_rows 95)))
          loaded_table)
  = [1; 2; 3; 4; 5; 6; 7; 8; 9; 10]%nat.
Proof. reflexivity. Qed.

(** ** Row edit mode *)

Lemma reload_frame (t : Table) param resp :
  editingKey (state (exec (reload param resp) t)) = editingKey (state t)
  ∧ props (exec (reload param resp) t) = props t.
Proof.
  unfold exec. rewrite reload_run.
  destruct (requestLoadData_frame
    (with_REQUEST_PARAM (default (REQUEST_PARAM t) param) t)
    (page (state t))
    (or_number (pageSize (state t)) (defaultPageSize (props t)))
    param (sorter (state t)) resp) as (Hp & _ & _ & Hk).
  done.
Qed.

Lemma column_render_editing (t : Table) (v : value) dataIndex record :
  Editing v t →
  column_render t dataIndex record = [IconCheck; IconUndo]
  ∨ column_render t dataIndex record = [IconDelete]
  ∨ column_render t dataIndex record = [].
Proof.
  unfold Editing, column_render, getColumnOperatingRender. intros Hk.
  rewrite Hk. cbn.
  repeat case_decide; destruct (isEditing t record); auto.
Qed.

Lemma edit_icon_hidden (t : Table) (v : value) dataIndex record :
  Editing v t → IconEdit ∉ column_render t dataIndex record.
Proof.
  intros Hk.
  destruct (column_render_editing t v dataIndex record Hk) as [-> | [-> | ->]];
    rewrite ?not_elem_of_cons; repeat split; try done; apply not_elem_of_nil.
Qed.

(** With no row being edited, the edit icon of the combined column is
    there and puts its row in edit mode. *)
Lemma edit_click_enters (t : Table) (v : value) record o :
  NotEditing t →
  key_of t record = Some v →
  Editing v (exec (click "$operating" IconEdit record o) t).
Proof.
  unfold NotEditing, Editing. intros Hn Hk.
  unfold click, exec, mbind, M_bind, this.
  assert (Hin : IconEdit ∈ column_render t "$operating" record).
  { unfold column_render, getColumnOperatingRender, isEditing.
    rewrite decide_True by done. rewrite Hn, Hk. cbn. apply list_elem_of_here. }
  rewrite bool_decide_eq_true_2 by done.
  unfold edit_onClick, mbind, M_bind, this, setState_editingKey, modify. cbn.
  done.
Qed.

Lemma handle_editingKey (t : Table) (v : value) e o :
  Editing v t →
  editingKey (state (exec (handle e o) t)) = Some v
  ∨ editingKey (state (exec (handle e o) t)) = None.
Proof.
  intros Hk. pose proof Hk as Hk'. unfold Editing in Hk'.
  destruct e as [dataIndex icon record|values|param|current size field order];
    cbn [handle].
  - unfold click, exec, mbind, M_bind, this. case_bool_decide as Hin; [|by left].
    destruct icon.
    + by destruct (edit_icon_hidden t v dataIndex record Hk).
    + rewrite delete_onClick_run.
      destruct (event_onSave _); [|by left].
      destruct (neq_false _); [|by left].
      left. cbn [fst snd]. by rewrite (proj1 (reload_frame t None (resp o))).
    + rewrite check_onClick_run.
      destruct (_ && _); [|by left].
      destruct (neq_false _); [by right | by left].
    + by right.
  - unfold exec, mbind, M_bind. rewrite cell_onSave_run. by left.
  - left. by rewrite (proj1 (reload_frame t param (resp o))).
  - left. unfold onChange.
    destruct (requestLoadData_frame t current size None
      (Some {| name := field; order := order |}) (resp o)) as (_ & _ & _ & Hk2).
    by rewrite Hk2.
Qed.

(** C5.  A row with a key [v] of any kind enters edit mode by its edit
    icon when no row is being edited.  While it is being edited: the rows
    shown in edit mode all have key [v]; no reserved column shows the edit
    icon in any row, so that a click meant to put another row in edit mode
    changes nothing; and whatever happens next, the key being edited is
    [v] until the grid is back to [NotEditing].  The listeners of the
    caller's [onRow] are attached to no row, except when [v] is [null]:
    [render] tests [editingKey == undefined], which [null] satisfies, so
    that the listeners then stay on every row while the row is edited. *)
Theorem exclusive_row_edit (t : Table) (v : value) :
  Editing v t →
  (∀ t0 record o, NotEditing t0 → key_of t0 record = Some v →
                  Editing v (exec (click "$operating" IconEdit record o) t0))
  ∧ (∀ r1 r2, isEditing t r1 = true → isEditing t r2 = true →
              key_of t r1 = Some v ∧ key_of t r2 = Some v)
  ∧ (∀ dataIndex record, IconEdit ∉ column_render t dataIndex record)
  ∧ (∀ dataIndex record o, exec (click dataIndex IconEdit record o) t = t)
  ∧ (∀ record index,
       render_onRow t record index
       = if decide (v = VNull)
         then match event_onRow (props t) with
              | Some onRow => onRow record index
              | None => []
              end
         else [])
  ∧ (∀ e o, Editing v (exec (handle e o) t)
            ∨ NotEditing (exec (handle e o) t))
  ∧ (∀ es, Editing v (run es t)
           ∨ ∃ es1 es2, es = es1 ++ es2 ∧ NotEditing (run es1 t)).
Proof.
  intros Hk. split; [|split; [|split; [|split; [|split; [|split]]]]].
  - intros t0 record o. apply edit_click_enters.
  - unfold isEditing, strict_eq. intros r1 r2 H1 H2.
    apply bool_decide_eq_true in H1, H2. by rewrite H1, H2.
  - intros. by eapply edit_icon_hidden.
  - intros dataIndex record o. unfold click, exec, mbind, M_bind, this.
    case_bool_decide as Hin; [|done].
    by destruct (edit_icon_hidden t v dataIndex record Hk).
  - intros. unfold render_onRow. rewrite Hk.
    case_decide as Hv; [by subst|]. by destruct v.
  - intros. by apply handle_editingKey.
  - intros es. revert t Hk. induction es as [|[e o] es IH]; intros t Hk.
    { by left. }
    cbn. destruct (handle_editingKey t v e o Hk) as [Hk1|Hn].
    + destruct (IH _ Hk1) as [?|(es1 & es2 & -> & Hn)]; [by left|].
      right. by exists ((e, o) :: es1), es2.
    + right. by exists [(e, o)], es.
Qed.

Lemma exclusive_row_edit_witness :
  Editing (VStr "1") row_editing_table
  ∧ render_onRow loaded_table first_row 0 = ["onClick"]
  ∧ render_onRow row_editing_table first_row 0 = [].
Proof.
  split; [reflexivity|]. split; [reflexivity|].
  destruct (exclusive_row_edit row_editing_table (VStr "1") eq_refl)
    as (_ & _ & _ & _ & Hrow & _).
  apply Hrow.
Defined.

(** C5 at a row whose key is [null]: its edit icon puts it in edit mode,
    no row shows an edit icon any more, and the row-click listeners are
    still attached, to the row itself and to the other row. *)
Lemma exclusive_row_edit_null_key :
  NotEditing null_key_table
  ∧ dataSource (state null_key_table) = [null_key_row; first_row]
  ∧ IconEdit ∈ column_render null_key_table "$operating" null_key_row
  ∧ Editing VNull null_key_editing
  ∧ isEditing null_key_editing null_key_row = true
  ∧ column_render null_key_editing "$operating" null_key_row
    = [IconCheck; IconUndo]
  ∧ column_render null_key_editing "$operating" first_row = []
  ∧ render_onRow null_key_editing null_key_row 0 = ["onClick"]
  ∧ render_onRow null_key_editing first_row 1 = ["onClick"].
Proof.
  split; [reflexivity|]. split; [reflexivity|].
  split; [apply list_elem_of_here|].
  repeat split; reflexivity.
Qed.

(** ** The [update] collection *)

Lemma filter_Forall_not {A} (P : A → Prop) `{!∀ x, Decision (P x)} (l : list A) :
  Forall (λ x, ¬ P x) l → filter P l = [].
Proof.
  induction 1 as [|x l Hx _ IH]; [done|]. by rewrite filter_cons_False.
Qed.

(** The loop of the per-cell save against [updated_spec], for a key field
    [k] and a saved value [values]. *)
Section UpdateLoop.

Context (k : string) (values : obj).

Lemma update_onSave_absent (l : list obj) :
  list_find (same_key k values) l = None →
  update_onSave k values l = l ++ [values].
Proof.
  intros Hnone. unfold update_onSave.
  apply list_find_None in Hnone.
  by rewrite (filter_Forall_not _ l Hnone).
Qed.

Lemma update_loop_found (l : list obj) i element :
  list_find (same_key k values) l = Some (i, element) →
  update_loop k values l
  = if decide (element = values) then l else <[i := values]> l.
Proof.
  revert i. induction l as [|x l IH]; intros i Hfind; [done|].
  cbn [update_loop]. cbn in Hfind. destruct (decide (same_key k values x)) as [Hx|Hx].
  - injection Hfind as <- <-.
    rewrite JSON_stringify_eqb. unfold spread.
    case_bool_decide; case_decide; done.
  - destruct (list_find _ l) as [[j y]|] eqn:Hl; [|done].
    cbn in Hfind. injection Hfind as <- <-.
    rewrite (IH j eq_refl). by case_decide.
Qed.

Lemma update_onSave_found (l : list obj) i element :
  list_find (same_key k values) l = Some (i, element) →
  update_onSave k values l
  = if decide (element = values) then l else <[i := values]> l.
Proof.
  intros Hfind. unfold update_onSave.
  rewrite (update_loop_found l i element Hfind).
  apply list_find_Some in Hfind as (Hi & HP & _).
  assert (element ∈ filter (same_key k values) l) as Hin.
  { apply list_elem_of_filter. split; [done|]. by eapply list_elem_of_lookup_2. }
  destruct (filter _ l); [by apply elem_of_nil in Hin | done].
Qed.

(** The loop of the per-cell save computes [updated_spec]. *)
Lemma update_onSave_spec (l : list obj) :
  update_onSave k values l = updated_spec k values l.
Proof.
  unfold updated_spec.
  destruct (list_find _ l) as [[i element]|] eqn:Hfind.
  - by apply update_onSave_found.
  - by apply update_onSave_absent.
Qed.

Lemma updated_spec_keys (l : list obj) :
  NoDup ((λ r, get_field r k) <$> l) → NoDup ((λ r, get_field r k) <$> updated_spec k values l).
Proof.
  intros Hnd. unfold updated_spec.
  destruct (list_find _ l) as [[i element]|] eqn:Hfind.
  - case_decide; [done|].
    apply list_find_Some in Hfind as (Hi & HP & _).
    rewrite list_fmap_insert. unfold same_key in HP. rewrite <- HP.
    rewrite list_insert_id; [done|]. by rewrite list_lookup_fmap, Hi.
  - apply list_find_None in Hfind.
    rewrite fmap_app. apply NoDup_app. split; [done|]. split.
    + intros kv Hk Hk'. apply list_elem_of_singleton in Hk' as ->.
      apply list_elem_of_fmap in Hk as (x & Hx & Hin).
      rewrite Forall_forall in Hfind. by apply (Hfind x Hin).
    + apply NoDup_singleton.
Qed.

Lemma one_entry_per_key (l : list obj) :
  NoDup ((λ r, get_field r k) <$> l) →
  is_Some (list_find (same_key k values) l) →
  length (filter (same_key k values) l) = 1%nat.
Proof.
  induction l as [|x l IH]; intros Hnd [[i y] Hfind]; [done|].
  cbn in Hnd. apply NoDup_cons in Hnd as [Hx Hnd].
  destruct (decide (same_key k values x)) as [HP|HP].
  - rewrite filter_cons_True by done. cbn. f_equal.
    assert (filter (same_key k values) l = []) as ->; [|done].
    apply filter_Forall_not, Forall_forall. intros z Hz HPz. apply Hx.
    apply list_elem_of_fmap. exists z. split; [|done].
    unfold same_key in *. congruence.
  - rewrite filter_cons_False by done. apply IH; [done|].
    cbn in Hfind. rewrite decide_False in Hfind by done.
    destruct (list_find _ l) as [[j z]|]; [eauto | done].
Qed.

Lemma updated_spec_found (l : list obj) :
  ∃ i, list_find (same_key k values) (updated_spec k values l) = Some (i, values).
Proof.
  unfold updated_spec.
  destruct (list_find _ l) as [[i element]|] eqn:Hfind.
  - exists i. case_decide as Heq.
    + by subst.
    + apply list_find_Some in Hfind as (Hi & HP & Hlt).
      apply list_find_Some. split; [|split].
      * apply list_lookup_insert_eq. by eapply lookup_lt_Some.
      * done.
      * intros j y Hj Hji. rewrite list_lookup_insert_ne in Hj by lia.
        by eapply Hlt.
  - exists (length l). apply list_find_None in Hfind.
    apply list_find_Some. split; [|split].
    + by rewrite lookup_app_r, Nat.sub_diag.
    + done.
    + intros j y Hj Hjl. rewrite lookup_app_l in Hj by done.
      rewrite Forall_forall in Hfind. apply (Hfind y).
      by eapply list_elem_of_lookup_2.
Qed.

Lemma updated_spec_idem (l : list obj) :
  updated_spec k values (updated_spec k values l) = updated_spec k values l.
Proof.
  destruct (updated_spec_found l) as [i Hi].
  unfold updated_spec at 1. rewrite Hi. by rewrite decide_True.
Qed.

End UpdateLoop.

(** What the events do to [update]. *)
Lemma requestLoadData_diff (t : Table) page pageSize param sorter resp :
  let t' := exec (requestLoadData page pageSize param sorter resp) t in
  dataSourceState t' = dataSourceState t ∨ dataSourceState t' = no_diff.
Proof.
  cbn zeta. destruct resp as [r|].
  - destruct (requestLoadData_loaded t page pageSize param sorter r)
      as (_ & _ & _ & ->).
    destruct (forallb _ _); auto.
  - left. apply (requestLoadData_pending t page pageSize param sorter).
Qed.

Lemma reload_diff (t : Table) param resp :
  let t' := exec (reload param resp) t in
  dataSourceState t' = dataSourceState t ∨ dataSourceState t' = no_diff.
Proof.
  cbn zeta. unfold exec. rewrite reload_run.
  apply (requestLoadData_diff
    (with_REQUEST_PARAM (default (REQUEST_PARAM t) param) t)).
Qed.

Lemma handle_props (t : Table) e o : props (exec (handle e o) t) = props t.
Proof.
  destruct e as [dataIndex icon record|values|param|current size field order];
    cbn [handle].
  - unfold click, exec, mbind, M_bind, this. case_bool_decide; [|done].
    destruct icon.
    + done.
    + rewrite delete_onClick_run.
      destruct (event_onSave _); [|done]. destruct (neq_false _); [|done].
      apply reload_frame.
    + rewrite check_onClick_run.
      destruct (_ && _); [|done]. by destruct (neq_false _).
    + done.
  - unfold exec, mbind, M_bind. by rewrite cell_onSave_run.
  - apply reload_frame.
  - apply (requestLoadData_frame t current size None
      (Some {| name := field; order := order |}) (resp o)).
Qed.

Lemma handle_update (t : Table) e o :
  let u' := update (dataSourceState (exec (handle e o) t)) in
  u' = update (dataSourceState t) ∨ u' = []
  ∨ ∃ values, e = CellSave values
              ∧ u' = update_onSave (rowKey (props t)) values
                     (update (dataSourceState t)).
Proof.
  cbn zeta.
  destruct e as [dataIndex icon record|values|param|current size field order];
    cbn [handle].
  - unfold click, exec, mbind, M_bind, this. case_bool_decide; [|by left].
    destruct icon.
    + by left.
    + rewrite delete_onClick_run.
      destruct (event_onSave _); [|by left]. destruct (neq_false _); [|by left].
      cbn [fst snd].
      destruct (reload_diff t None (resp o)) as [-> | ->]; auto.
    + rewrite check_onClick_run.
      destruct (_ && _); [|by left]. destruct (neq_false _); by left.
    + by left.
  - right; right. exists values. split; [done|].
    unfold exec, mbind, M_bind. by rewrite cell_onSave_run.
  - destruct (reload_diff t param (resp o)) as [-> | ->]; auto.
  - destruct (requestLoadData_diff t current size None
      (Some {| name := field; order := order |}) (resp o)) as [H | H];
      unfold onChange; rewrite H; auto.
Qed.

Lemma run_cons e o (es : list (Event * Oracle)) (t : Table) :
  run ((e, o) :: es) t = run es (exec (handle e o) t).
Proof. done. Qed.

Lemma run_props (es : list (Event * Oracle)) (t : Table) :
  props (run es t) = props t.
Proof.
  revert t. induction es as [|[e o] es IH]; intros t; [done|].
  by rewrite run_cons, IH, handle_props.
Qed.

Lemma key_of_props (t t' : Table) : props t' = props t → key_of t' = key_of t.
Proof. unfold key_of. by intros ->. Qed.

(** No event gives a key a second entry in [update]. *)
Lemma handle_keys (t : Table) e o :
  NoDup (update_keys t) → NoDup (update_keys (exec (handle e o) t)).
Proof.
  intros Hnd. unfold update_keys.
  rewrite (key_of_props t _ (handle_props t e o)).
  destruct (handle_update t e o) as [-> | [-> | (values & _ & ->)]].
  - done.
  - apply NoDup_nil_2.
  - rewrite update_onSave_spec. by apply updated_spec_keys.
Qed.

Lemma run_keys (es : list (Event * Oracle)) (t : Table) :
  NoDup (update_keys t) → NoDup (update_keys (run es t)).
Proof.
  revert t. induction es as [|[e o] es IH]; intros t Hnd; [done|].
  rewrite run_cons. by apply IH, handle_keys.
Qed.

Lemma cell_onSave_update (t : Table) values rs :
  update (dataSourceState (exec (cell_onSave values rs) t))
  = updated_spec (rowKey (props t)) values (update (dataSourceState t)).
Proof.
  unfold exec. rewrite cell_onSave_run. cbn. apply update_onSave_spec.
Qed.

(** C2.  In every state [t] the grid reaches from its initial one, by any
    events, no key has two entries in [update].  A per-cell save of
    [values] leaves [update] as [updated_spec] says: the first entry with
    the key of [values] is replaced where it stands when it differs from
    [values] as a full value, [update] is left alone when it is equal, and
    [values] is added last when the key has no entry.  A second save of
    the same [values] changes nothing, and after either save the key has
    exactly one entry.  Rows are JSON records (a field that holds
    [undefined] counts as absent), for which equal serialisations mean
    equal records ([JSON_stringify_inj]). *)
Theorem updated_one_entry_per_key (p : Props) (es : list (Event * Oracle))
    (values : obj) (rs1 rs2 : RespState) :
  let t := run es (new p) in
  let t1 := exec (cell_onSave values rs1) t in
  let t2 := exec (cell_onSave values rs2) t1 in
  let entries_of_key (t' : Table) :=
    filter (same_key (rowKey p) values) (update (dataSourceState t')) in
  NoDup (update_keys t)
  ∧ update (dataSourceState t1)
    = updated_spec (rowKey p) values (update (dataSourceState t))
  ∧ update (dataSourceState t2) = update (dataSourceState t1)
  ∧ length (entries_of_key t1) = 1%nat
  ∧ length (entries_of_key t2) = 1%nat.
Proof.
  cbn zeta. set (t := run es (new p)).
  assert (Hp : props t = p) by apply run_props.
  assert (Hnd : NoDup (update_keys t)).
  { apply run_keys. apply NoDup_nil_2. }
  assert (H1 := cell_onSave_update t values rs1). rewrite Hp in H1.
  assert (H2 : update (dataSourceState
                 (exec (cell_onSave values rs2) (exec (cell_onSave values rs1) t)))
               = update (dataSourceState (exec (cell_onSave values rs1) t))).
  { rewrite cell_onSave_update, H1.
    unfold exec. rewrite cell_onSave_run. cbn [fst snd props saved_table].
    rewrite Hp. apply updated_spec_idem. }
  assert (Hone : length (filter (same_key (rowKey p) values)
                   (update (dataSourceState (exec (cell_onSave values rs1) t))))
                 = 1%nat).
  { rewrite H1. apply one_entry_per_key.
    - apply updated_spec_keys. unfold update_keys, key_of in Hnd.
      by rewrite Hp in Hnd.
    - destruct (updated_spec_found (rowKey p) values
                  (update (dataSourceState t))); eauto. }
  split; [done|]. split; [done|]. split; [done|]. split; [done|].
  by rewrite H2.
Qed.

Example updated_three_saves :
  let row_b := [("id", VStr "1"); ("name", VStr "b")] in
  let row_c := [("id", VStr "1"); ("name", VStr "c")] in
  let other := [("id", VStr "2"); ("name", VStr "z")] in
  update (dataSourceState
    (run [(CellSave other, {| err := false; values := []; respState := RespTrue; resp := None |});
          (CellSave row_b, {| err := false; values := []; respState := RespTrue; resp := None |});
          (CellSave row_b, {| err := false; values := []; respState := RespFalse; resp := None |});
          (CellSave row_c, {| err := false; values := []; respState := RespUndefined; resp := None |})]
         (new (example_props None))))
  = [other; row_c].
Proof. vm_compute. reflexivity. Qed.

End TableFacts.

(** * Properties of the tree *)

Module TreeFacts.

Import Tree.

Lemma fresh_array_unused (s : Store) :
  arrays s !! fresh (dom (arrays s)) = None.
Proof. apply not_elem_of_dom, is_fresh. Qed.

(** C9.  When [loadData] resolves to a non-empty array [a], [onLoadData]
    sets the [children] field of the node object to [a] itself, leaves
    every other node as it was, and makes [treeData] a new array with the
    elements of the former one, every existing array being kept.  When it
    resolves to an empty array or to [undefined], store and state are
    unchanged. *)
Theorem onLoadData_effect (t : Tree) (node a : ref) (item : TreeNodeData)
    (elements root : list ref) :
  objects (store t) !! node = Some item →
  arrays (store t) !! a = Some elements →
  arrays (store t) !! treeData t = Some root →
  let t' := attached t node item a root in
  onLoadData node (Some a) t
    = Some (if decide (elements = []) then t else t')
  ∧ onLoadData node None t = Some t
  ∧ children <$> (objects (store t') !! node) = Some (Some a)
  ∧ (∀ n, n ≠ node → objects (store t') !! n = objects (store t) !! n)
  ∧ treeData t' ≠ treeData t
  ∧ arrays (store t') !! treeData t' = Some root
  ∧ (∀ r, r ≠ treeData t' → arrays (store t') !! r = arrays (store t) !! r).
Proof.
  intros Hnode Ha Hroot. cbn zeta.
  pose proof (fresh_array_unused (store t)) as Hfresh.
  split; [|split; [done|]].
  { unfold onLoadData. rewrite Ha. cbn.
    destruct elements as [|x elements]; cbn; [done|].
    rewrite Hnode. cbn. unfold clone_array. cbn. rewrite Hroot. done. }
  unfold attached. cbn.
  split; [by rewrite lookup_insert_eq|].
  split; [by intros n Hn; rewrite lookup_insert_ne|].
  split; [by intros Heq; rewrite Heq, Hroot in Hfresh|].
  split; [by rewrite lookup_insert_eq|].
  by intros r Hr; rewrite lookup_insert_ne.
Qed.

Lemma onLoadData_effect_witness :
  onLoadData 1%positive (Some 2%positive) sample_tree
  = Some (attached sample_tree 1%positive (leaf "root") 2%positive [1%positive]).
Proof.
  apply (onLoadData_effect sample_tree 1%positive 2%positive (leaf "root")
           [2%positive; 3%positive] [1%positive]); reflexivity.
Defined.

End TreeFacts.

(** * More properties of the grid *)

Module TableLoading.

Import Table JsonFacts TableFacts.

(** ** Loading, continued *)

Lemma requestLoadData_paging (t : Table) page pageSize param sorter resp :
  let t' := exec (requestLoadData page pageSize param sorter resp) t in
  Table.page (state t') = Table.page (state t)
  ∧ Table.pageSize (state t') = Table.pageSize (state t)
  ∧ Table.sorter (state t') = Table.sorter (state t).
Proof.
  cbn zeta. unfold exec at 1 2 3. rewrite requestLoadData_run. cbn.
  destruct resp as [r|]; [|done].
  rewrite editStash_exec. cbn. destruct (forallb _ _); done.
Qed.

Lemma reload_paging (t : Table) param resp :
  let t' := exec (reload param resp) t in
  page (state t') = page (state t)
  ∧ pageSize (state t') = pageSize (state t)
  ∧ sorter (state t') = sorter (state t).
Proof.
  cbn zeta. unfold exec. rewrite reload_run.
  apply (requestLoadData_paging
    (with_REQUEST_PARAM (default (REQUEST_PARAM t) param) t)).
Qed.

Lemma handle_paging (t : Table) e o :
  let t' := exec (handle e o) t in
  page (state t') = page (state t)
  ∧ pageSize (state t') = pageSize (state t)
  ∧ sorter (state t') = sorter (state t).
Proof.
  cbn zeta.
  destruct e as [dataIndex icon record|values|param|current size field order];
    cbn [handle].
  - unfold click, exec, mbind, M_bind, this. case_bool_decide; [|done].
    destruct icon.
    + done.
    + rewrite delete_onClick_run.
      destruct (event_onSave _); [|done]. destruct (neq_false _); [|done].
      apply reload_paging.
    + rewrite check_onClick_run.
      destruct (_ && _); [|done]. by destruct (neq_false _).
    + done.
  - unfold exec, mbind, M_bind. by rewrite cell_onSave_run.
  - apply reload_paging.
  - apply (requestLoadData_paging t current size None
      (Some {| name := field; order := order |}) (resp o)).
Qed.

Lemma run_paging (es : list (Event * Oracle)) (t : Table) :
  page (state (run es t)) = page (state t)
  ∧ pageSize (state (run es t)) = pageSize (state t)
  ∧ sorter (state (run es t)) = sorter (state t).
Proof.
  revert t. induction es as [|[e o] es IH]; intros t; [done|].
  rewrite run_cons.
  destruct (IH (exec (handle e o) t)) as (-> & -> & ->).
  apply handle_paging.
Qed.

(** X2 ([reload], the initial state).  No handler writes [state.page],
    [state.pageSize] or [state.sorter]: in every state reached from a new
    grid by clicks, cell saves, reloads and page changes they are still 1,
    0 and absent.  So [reload] always asks for page 1 with
    [defaultPageSize] rows and no sorter, whatever page was last shown. *)
Theorem reload_requests_first_page (p : Props) (es : list (Event * Oracle))
    param resp :
  let t := run es (new p) in
  page (state t) = 1
  ∧ pageSize (state t) = 0
  ∧ sorter (state t) = None
  ∧ ∃ d, head (calls (reload param resp) t)
         = Some (CallLoadData {| req_page := 1;
                                 req_pageSize := defaultPageSize p;
                                 req_param := d; req_sorter := None |}).
Proof.
  cbn zeta. destruct (run_paging es (new p)) as (Hp & Hs & Hso).
  cbn in Hp, Hs, Hso. repeat split; try done.
  unfold calls. rewrite reload_run, requestLoadData_run.
  rewrite Hp, Hs, Hso, run_props. cbn -[spread_all]. eauto.
Qed.

Lemma handle_loading (t : Table) e o :
  resp o = None →
  loading (state t) = true →
  loading (state (exec (handle e o) t)) = true.
Proof.
  intros Ho Hl.
  assert (Hreq : ∀ t0 page size param sorter,
    loading (state (exec (requestLoadData page size param sorter None) t0)) = true).
  { intros. apply requestLoadData_pending. }
  unfold exec in Hreq.
  destruct e as [dataIndex icon record|values|param|current size field order];
    cbn [handle]; rewrite ?Ho.
  - unfold click, exec, mbind, M_bind, this. case_bool_decide; [|done].
    destruct icon.
    + done.
    + rewrite delete_onClick_run, Ho.
      destruct (event_onSave _); [|done]. destruct (neq_false _); [|done].
      cbn [fst snd]. unfold exec. rewrite reload_run. apply Hreq.
    + rewrite check_onClick_run.
      destruct (_ && _); [|done]. by destruct (neq_false _).
    + done.
  - unfold exec, mbind, M_bind. by rewrite cell_onSave_run.
  - unfold exec. rewrite reload_run. apply Hreq.
  - apply Hreq.
Qed.

(** X3 ([requestLoadData]).  The loading flag is only lowered by a
    resolved load: after a request whose promise has not resolved, it stays
    set through any sequence of clicks, cell saves, reloads and page
    changes none of whose own loads resolves. *)
Theorem loading_stays_set (t : Table) page size param sorter
    (es : list (Event * Oracle)) :
  Forall (λ eo, resp eo.2 = None) es →
  loading (state (run es (exec (requestLoadData page size param sorter None) t)))
  = true.
Proof.
  intros Hes.
  assert (H0 : loading (state (exec (requestLoadData page size param sorter None) t)) = true)
    by apply requestLoadData_pending.
  revert H0. generalize (exec (requestLoadData page size param sorter None) t).
  induction Hes as [|[e o] es Ho _ IH]; intros t0 H0; [done|].
  rewrite run_cons. apply IH. by apply handle_loading.
Qed.

Lemma loading_stays_set_witness :
  loading (state (run [(Click "$operating" IconEdit first_row, sample_oracle);
                       (CellSave edited_row, sample_oracle)]
                      (exec (requestLoadData 1 300 None None None) loaded_table)))
  = true.
Proof.
  apply (loading_stays_set loaded_table 1 300 None None).
  repeat constructor.
Defined.

(** X1 ([editStash]).  [editStash] asks every registered editor cell to
    close, in registration order, and then clears the three diff lists all
    together or not at all: they are emptied when every close promise
    fulfils and left as they were when one rejects.  It never writes the
    React state or [REQUEST_PARAM], and with no editor cell registered the
    grid reports no pending edit afterwards. *)
Theorem editStash_all_or_nothing (t : Table) :
  calls editStash t = CallCellOnSave <$> currentEditorCell t
  ∧ state (exec editStash t) = state t
  ∧ REQUEST_PARAM (exec editStash t) = REQUEST_PARAM t
  ∧ dataSourceState (exec editStash t)
    = (if forallb hide_fulfils (currentEditorCell t) then no_diff
       else dataSourceState t)
  ∧ (currentEditorCell t = [] → editStatus (exec editStash t) = false).
Proof.
  assert (Hc : calls editStash t = CallCellOnSave <$> currentEditorCell t).
  { unfold calls, editStash, mbind, M_bind, this.
    rewrite forEach_emit_exec.
    destruct (forallb _ _); cbn; by rewrite app_nil_r. }
  rewrite editStash_exec. split; [done|].
  destruct (forallb hide_fulfils (currentEditorCell t)) eqn:Hall;
    repeat split; try done.
  intros Hnil. by rewrite Hnil in Hall.
Qed.

End TableLoading.

Module TableSaves.

Import Table JsonFacts TableFacts.

(** ** The per-cell save, continued *)

Lemma saved_rows_keys (k : string) (values : obj) (rows : list obj) :
  (λ r, get_field r k)
    <$> ((λ data, if decide (same_key k values data) then spread values else data)
           <$> rows)
  = (λ r, get_field r k) <$> rows.
Proof.
  rewrite <- list_fmap_compose. apply list_fmap_ext. intros i x _. cbn.
  case_decide as Hx; [|done]. unfold spread. by rewrite Hx.
Qed.

(** X4 (the [onSave] of a cell).  A cell save keeps the page in shape: the
    number of rows, their keys and their order are unchanged; the row at
    each position is [values] when its key equals the key of [values] and
    the former row otherwise, so the page is untouched when no row has that
    key.  The index column, [total], the loading flag and the row being
    edited are unchanged. *)
Theorem cell_onSave_dataset (t : Table) (values : obj) rs :
  let t' := exec (cell_onSave values rs) t in
  length (dataSource (state t')) = length (dataSource (state t))
  ∧ key_of t <$> dataSource (state t') = key_of t <$> dataSource (state t)
  ∧ (∀ i, dataSource (state t') !! i
          = (λ row, if decide (key_of t row = key_of t values)
                    then values else row) <$> (dataSource (state t) !! i))
  ∧ (Forall (λ row, key_of t row ≠ key_of t values) (dataSource (state t)) →
     dataSource (state t') = dataSource (state t))
  ∧ index_column t' = index_column t
  ∧ total (state t') = total (state t)
  ∧ loading (state t') = loading (state t)
  ∧ editingKey (state t') = editingKey (state t).
Proof.
  cbn zeta. unfold exec. rewrite cell_onSave_run. cbn [fst snd].
  unfold saved_table. cbn [state dataSource total loading editingKey].
  split; [by rewrite length_fmap|].
  split; [apply saved_rows_keys|].
  split; [intros i; by rewrite list_lookup_fmap|].
  split.
  { intros Hall. rewrite <- (list_fmap_id (dataSource (state t))) at 2.
    apply list_fmap_ext. intros i x Hx. cbn.
    rewrite decide_False; [done|].
    rewrite Forall_forall in Hall. apply Hall.
    by eapply list_elem_of_lookup_2. }
  split; [|done].
  rewrite !index_column_seq. cbn. by rewrite length_fmap.
Qed.

(** X5 (the [onSave] of a cell).  Rows without the [rowKey] field all
    compare equal by key ([undefined === undefined]): saving two such rows
    in turn, from an empty update list, leaves one entry in it, the second
    row, the first one being overwritten. *)
Theorem keyless_rows_share_entry (t : Table) (values1 values2 : obj) rs1 rs2 :
  update (dataSourceState t) = [] →
  key_of t values1 = None →
  key_of t values2 = None →
  update (dataSourceState
    (exec (cell_onSave values2 rs2) (exec (cell_onSave values1 rs1) t)))
  = [values2].
Proof.
  intros Hu H1 H2. unfold key_of in H1, H2.
  unfold exec. rewrite !cell_onSave_run. cbn [fst snd].
  cbn [saved_table update dataSourceState props rowKey].
  rewrite Hu, !update_onSave_spec.
  unfold updated_spec at 2. cbn.
  unfold updated_spec. cbn.
  rewrite decide_True by (unfold same_key; congruence). cbn.
  by case_decide; subst.
Qed.

Lemma keyless_rows_share_entry_witness :
  update (dataSourceState
    (exec (cell_onSave (keyless_row "b") RespTrue)
          (exec (cell_onSave (keyless_row "a") RespTrue) loaded_table)))
  = [keyless_row "b"].
Proof.
  apply (keyless_rows_share_entry loaded_table (keyless_row "a")
           (keyless_row "b") RespTrue RespTrue); reflexivity.
Defined.

(** ** The [$state] column and [editStatus] *)

Lemma filter_pos_Exists {A} (P : A → Prop) `{!∀ x, Decision (P x)} (l : list A) :
  (0 <? length (filter P l))%nat = bool_decide (Exists P l).
Proof.
  induction l as [|x l IH]; [done|].
  destruct (decide (P x)) as [Hx|Hx].
  - rewrite filter_cons_True by done. cbn.
    symmetry. apply bool_decide_eq_true_2. by left.
  - rewrite filter_cons_False by done. rewrite IH.
    apply bool_decide_ext. rewrite Exists_cons. tauto.
Qed.

Lemma updated_spec_Exists (k : string) (values record : obj) (l : list obj) :
  Exists (same_key k record) (updated_spec k values l)
  ↔ Exists (same_key k record) l ∨ get_field record k = get_field values k.
Proof.
  unfold updated_spec.
  destruct (list_find _ l) as [[i element]|] eqn:Hfind.
  - apply list_find_Some in Hfind as (Hi & HP & _). unfold same_key in HP.
    assert (Hel : same_key k record element
                  ↔ get_field record k = get_field values k).
    { unfold same_key. rewrite HP. split; congruence. }
    case_decide as Heq.
    + split; [auto|]. intros [?|Hv]; [done|].
      apply Exists_exists. exists element. split; [|by apply Hel].
      by eapply list_elem_of_lookup_2.
    + rewrite !Exists_exists. split.
      * intros (x & Hx & HPx).
        apply list_elem_of_lookup in Hx as [j Hj].
        destruct (decide (i = j)) as [->|Hij].
        -- rewrite list_lookup_insert_eq in Hj by (by eapply lookup_lt_Some).
           injection Hj as <-. right. unfold same_key in HPx. congruence.
        -- rewrite list_lookup_insert_ne in Hj by done.
           left. exists x. split; [|done]. by eapply list_elem_of_lookup_2.
      * intros [(x & Hx & HPx)|Hv].
        -- apply list_elem_of_lookup in Hx as [j Hj].
           destruct (decide (i = j)) as [->|Hij].
           ++ exists values. split.
              ** apply list_elem_of_lookup. exists j.
                 apply list_lookup_insert_eq. by eapply lookup_lt_Some.
              ** rewrite Hi in Hj. injection Hj as <-.
                 unfold same_key in *. congruence.
           ++ exists x. split; [|done].
              apply list_elem_of_lookup. exists j.
              by rewrite list_lookup_insert_ne.
        -- exists values. split.
           ++ apply list_elem_of_lookup. exists i.
              apply list_lookup_insert_eq. by eapply lookup_lt_Some.
           ++ unfold same_key. congruence.
  - rewrite Exists_app, Exists_cons, Exists_nil. unfold same_key.
    split.
    + intros [?|[?|[]]]; [by left | right; congruence].
    + intros [?|?]; [by left | right; left; congruence].
Qed.

(** X6 ([getColumnState]).  The [$state] marker of a row follows the cell
    saves: after a cell save it shows on the rows that showed it before and
    on the rows with the key of the saved record, and on no other; a
    resolved load whose editor cells all close takes it off every row; a
    new grid shows it on none. *)
Theorem state_marker_follows_saves (t : Table) (values record : obj) rs
    page size param sorter r p :
  getColumnState_render (exec (cell_onSave values rs) t) record
  = getColumnState_render t record
    || bool_decide (key_of t record = key_of t values)
  ∧ (all_hide_fulfil t →
     getColumnState_render
       (exec (requestLoadData page size param sorter (Some r)) t) record
     = false)
  ∧ getColumnState_render (new p) record = false.
Proof.
  split; [|split; [|done]].
  - unfold exec. rewrite cell_onSave_run. cbn [fst snd].
    unfold getColumnState_render, key_of.
    cbn [saved_table props dataSourceState update create].
    rewrite update_onSave_spec, !filter_pos_Exists.
    rewrite (bool_decide_ext _ _ (updated_spec_Exists _ values record _)).
    rewrite bool_decide_or.
    destruct (bool_decide (Exists _ (update _))),
      (bool_decide (Exists _ (create _))),
      (bool_decide (get_field record _ = _)); done.
  - intros Hhide.
    destruct (requestLoadData_loaded t page size param sorter r)
      as (_ & _ & _ & Hd).
    unfold all_hide_fulfil in Hhide. rewrite Hhide in Hd.
    unfold getColumnState_render. by rewrite Hd.
Qed.

Lemma editStatus_false (t : Table) :
  editStatus t = false
  ↔ create (dataSourceState t) = [] ∧ update (dataSourceState t) = []
    ∧ delete_ (dataSourceState t) = [].
Proof.
  unfold editStatus.
  destruct (create _), (update _), (delete_ _); cbn;
    (split; [try done | by intros (? & ? & ?)]).
Qed.

(** X7 ([editStatus]).  A new grid has no pending edit; after any cell save
    [editStatus] is true, whatever the save hook answers; and it is false
    exactly when the three diff lists are empty. *)
Theorem editStatus_tracks_saves (t : Table) (values : obj) rs p :
  editStatus (new p) = false
  ∧ editStatus (exec (cell_onSave values rs) t) = true
  ∧ (editStatus t = false
     ↔ create (dataSourceState t) = [] ∧ update (dataSourceState t) = []
       ∧ delete_ (dataSourceState t) = []).
Proof.
  split; [done|]. split; [|apply editStatus_false].
  destruct (editStatus _) eqn:He; [done|].
  apply editStatus_false in He as (_ & Hu & _).
  rewrite cell_onSave_update in Hu.
  destruct (updated_spec_found (rowKey (props t)) values
              (update (dataSourceState t))) as [i Hi].
  by rewrite Hu in Hi.
Qed.

(** X17 (no [event.onSave]).  Without a save hook the delete icon and the
    confirm icon do nothing at all: no call, no state change; a cell save
    still records the row in the page and in the update list, makes no
    call, and answers [true]. *)
Theorem without_save_hook (t : Table) record values err rs resp :
  event_onSave (props t) = false →
  delete_onClick record rs resp t = (tt, t, [])
  ∧ check_onClick record err values rs t = (tt, t, [])
  ∧ cell_onSave values rs t = (true, saved_table t values, []).
Proof.
  intros Hh.
  rewrite delete_onClick_run, check_onClick_run, cell_onSave_run, Hh. done.
Qed.

Lemma without_save_hook_witness :
  delete_onClick first_row RespTrue None hookless_table
  = (tt, hookless_table, []).
Proof.
  apply (without_save_hook hookless_table first_row [] false RespTrue None).
  reflexivity.
Defined.

End TableSaves.

Module TableEditMode.

Import Table JsonFacts TableFacts.

(** ** Row edit mode, continued *)

Lemma with_editingKey_id (t : Table) :
  with_editingKey (editingKey (state t)) t = t.
Proof. by destruct t as [? [] ? ? ?]. Qed.

Lemma with_editingKey_twice (t : Table) k1 k2 :
  with_editingKey k2 (with_editingKey k1 t) = with_editingKey k2 t.
Proof. done. Qed.

Lemma click_edit_run (t : Table) dataIndex record o :
  IconEdit ∈ column_render t dataIndex record →
  click dataIndex IconEdit record o t
  = (tt, with_editingKey (key_of t record) t, []).
Proof.
  intros Hin. unfold click, mbind, M_bind, this.
  rewrite bool_decide_eq_true_2 by done. done.
Qed.

Lemma click_undo_run (t : Table) dataIndex record o :
  IconUndo ∈ column_render t dataIndex record →
  click dataIndex IconUndo record o t = (tt, with_editingKey None t, []).
Proof.
  intros Hin. unfold click, mbind, M_bind, this.
  rewrite bool_decide_eq_true_2 by done. done.
Qed.

Lemma column_render_not_editing (t : Table) record :
  NotEditing t →
  column_render t "$operating" record
  = (if decide (key_of t record = None) then [IconCheck; IconUndo]
     else [IconEdit; IconDelete])
  ∧ column_render t "$operating#edit" record
    = (if decide (key_of t record = None) then [IconCheck; IconUndo]
       else [IconEdit]).
Proof.
  unfold NotEditing, column_render, getColumnOperatingRender, isEditing,
    strict_eq.
  intros ->.
  destruct (decide ("$operating" = "$operating")) as [_|[]]; [|done].
  destruct (decide ("$operating#edit" = "$operating")) as [?|_]; [done|].
  destruct (decide ("$operating#edit" = "$operating#edit")) as [_|[]]; [|done].
  case_decide as Hk.
  - by rewrite bool_decide_eq_true_2.
  - by rewrite bool_decide_eq_false_2.
Qed.

Lemma column_render_own_row (t : Table) record :
  key_of t record = editingKey (state t) →
  column_render t "$operating" record = [IconCheck; IconUndo].
Proof.
  unfold column_render, getColumnOperatingRender, isEditing, strict_eq.
  intros Hk.
  destruct (decide ("$operating" = "$operating")) as [_|[]]; [|done].
  by rewrite bool_decide_eq_true_2.
Qed.

(** X8 ([getColumnOperating], [getColumnOperatingRender]).  With no row
    being edited, the edit icon of a row that has a key puts that row in
    edit mode without calling any hook, and the undo icon of the row then
    restores the grid exactly as it was. *)
Theorem edit_then_undo (t : Table) record o1 o2 :
  NotEditing t →
  key_of t record ≠ None →
  let t1 := exec (click "$operating" IconEdit record o1) t in
  editingKey (state t1) = key_of t record
  ∧ isEditing t1 record = true
  ∧ calls (click "$operating" IconEdit record o1) t = []
  ∧ click "$operating" IconUndo record o2 t1 = (tt, t, []).
Proof.
  intros Hn Hk. cbn zeta.
  destruct (column_render_not_editing t record Hn) as [Hr _].
  rewrite decide_False in Hr by done.
  assert (Hin : IconEdit ∈ column_render t "$operating" record).
  { rewrite Hr. apply list_elem_of_here. }
  unfold exec, calls. rewrite (click_edit_run t _ record o1 Hin). cbn [fst snd].
  split; [done|]. split.
  { unfold isEditing, strict_eq. by apply bool_decide_eq_true_2. }
  split; [done|].
  rewrite click_undo_run.
  - rewrite with_editingKey_twice. unfold NotEditing in Hn.
    rewrite <- Hn. by rewrite with_editingKey_id.
  - rewrite (column_render_own_row (with_editingKey (key_of t record) t)) by done.
    apply list_elem_of_further, list_elem_of_here.
Qed.

Lemma edit_then_undo_witness :
  click "$operating" IconUndo first_row sample_oracle row_editing_table
  = (tt, loaded_table, []).
Proof.
  apply (edit_then_undo loaded_table first_row sample_oracle sample_oracle);
    [reflexivity | discriminate].
Defined.

(** X11 ([isEditing]).  While no row is being edited, a row whose
    [record[rowKey]] is [undefined] (it has no such field, and [rowKey] is
    not a name that every object inherits, such as [toString]) counts as
    the row being edited ([undefined === undefined]): the [$operating] and
    [$operating#edit] columns show the confirm and undo icons on it instead
    of the edit icon, and its confirm icon leaves the grid with no row in
    edit mode. *)
Theorem keyless_row_shows_confirm (t : Table) record err values rs :
  NotEditing t →
  reads_undefined t record →
  column_render t "$operating" record = [IconCheck; IconUndo]
  ∧ column_render t "$operating#edit" record = [IconCheck; IconUndo]
  ∧ isEditing t record = true
  ∧ NotEditing (exec (click "$operating" IconCheck record
                        {| Table.err := err; Table.values := values;
                           respState := rs; resp := None |}) t).
Proof.
  intros Hn [Hk _].
  destruct (column_render_not_editing t record Hn) as [Hr Hr'].
  rewrite decide_True in Hr, Hr' by done.
  split; [done|]. split; [done|]. split.
  { unfold isEditing, strict_eq. apply bool_decide_eq_true_2.
    by rewrite Hk, Hn. }
  unfold click, exec, mbind, M_bind, this. rewrite Hr.
  rewrite bool_decide_eq_true_2 by apply list_elem_of_here.
  cbn [Table.err Table.values respState].
  rewrite check_onClick_run.
  destruct (_ && _); [|done]. by destruct (neq_false rs).
Qed.

Lemma keyless_row_shows_confirm_witness :
  column_render loaded_table "$operating" (keyless_row "n")
  = [IconCheck; IconUndo].
Proof.
  apply (keyless_row_shows_confirm loaded_table (keyless_row "n") false []
           RespTrue); [reflexivity|].
  split; [reflexivity|]. change ("id" ∉ Object_prototype).
  unfold Object_prototype. rewrite !not_elem_of_cons.
  repeat split; try discriminate. apply not_elem_of_nil.
Defined.

(** X12 (the [onRow] of [render], [isEditing]).  A row whose key is [null]
    can enter edit mode, and then the two comparisons disagree: by [===]
    the row is the one being edited and no row shows an edit icon, but by
    [== undefined] the grid still counts as not editing, so the row click
    listeners of the caller stay attached on every row. *)
Theorem null_key_keeps_row_listeners (t : Table) record o :
  NotEditing t →
  key_of t record = Some VNull →
  let t' := exec (click "$operating" IconEdit record o) t in
  editingKey (state t') = Some VNull
  ∧ column_render t' "$operating" record = [IconCheck; IconUndo]
  ∧ (∀ dataIndex other, IconEdit ∉ column_render t' dataIndex other)
  ∧ (∀ other index,
       render_onRow t' other index
       = match event_onRow (props t) with
         | Some onRow => onRow other index
         | None => []
         end).
Proof.
  intros Hn Hk. cbn zeta.
  destruct (column_render_not_editing t record Hn) as [Hr _].
  rewrite decide_False in Hr by (by rewrite Hk).
  assert (Hin : IconEdit ∈ column_render t "$operating" record).
  { rewrite Hr. apply list_elem_of_here. }
  unfold exec. rewrite (click_edit_run t _ record o Hin). cbn [fst snd].
  rewrite Hk. split; [done|]. split.
  { by apply column_render_own_row. }
  split.
  - intros dataIndex other.
    unfold column_render, getColumnOperatingRender, isEditing, strict_eq. cbn.
    repeat case_decide; try case_bool_decide;
      rewrite ?not_elem_of_cons; repeat split; try done; apply not_elem_of_nil.
  - done.
Qed.

Lemma null_key_keeps_row_listeners_witness :
  render_onRow (exec (click "$operating" IconEdit null_key_row sample_oracle)
                     loaded_table) first_row 0
  = ["onClick"].
Proof.
  apply (null_key_keeps_row_listeners loaded_table null_key_row sample_oracle);
    reflexivity.
Defined.

End TableEditMode.

Module TableRowEdit.

Import Table JsonFacts TableFacts.

#[local] Arguments String.append : simpl nomatch.





(** ** The confirm icon *)

(** X9 ([getColumnOperatingRender], the confirm icon).  The confirm icon
    never writes the page, [total], the diff lists or [REQUEST_PARAM].
    When there is a hook, a form and no validation error it calls the hook
    once, with the merged record and [UPDATE], and then takes the row out
    of edit mode if the hook resolved to [true] or to [undefined] and
    leaves it in edit mode if the hook resolved to [false]; otherwise it
    calls nothing and changes nothing. *)
Theorem confirm_leaves_data_alone (t : Table) record err values rs :
  let t' := exec (check_onClick record err values rs) t in
  dataSource (state t') = dataSource (state t)
  ∧ total (state t') = total (state t)
  ∧ dataSourceState t' = dataSourceState t
  ∧ REQUEST_PARAM t' = REQUEST_PARAM t
  ∧ editStatus t' = editStatus t
  ∧ calls (check_onClick record err values rs) t
    = (if event_onSave (props t) && form (props t) && negb err
       then [CallOnSave (merged_record record values) UPDATE] else [])
  ∧ editingKey (state t')
    = (if event_onSave (props t) && form (props t) && negb err
       then match rs with
            | RespFalse => editingKey (state t)
            | RespTrue | RespUndefined => None
            end
       else editingKey (state t)).
Proof.
  cbn zeta. unfold exec, calls. rewrite check_onClick_run.
  destruct (event_onSave (props t) && form (props t) && negb err); [|done].
  destruct rs; done.
Qed.

(** ** The record the confirm icon builds *)













Lemma split_head_no_separator (s : string) :
  ";"%char ∉ String.list_ascii_of_string (split_head s).
Proof.
  induction s as [|c s IH]; cbn.
  - apply not_elem_of_nil.
  - case_decide; cbn; [apply not_elem_of_nil|].
    rewrite not_elem_of_cons. split; [congruence|done].
Qed.







(** ** The record the confirm icon builds, continued *)


(** Among the array indices the new one takes its place by value. *)
Example merged_record_index_order :
  merged_record [("1", VNum 1); ("5", VNum 5); ("id", VStr "a")]
                [("3;x", VNum 3); ("name", VStr "n"); ("10", VNum 10);
                 ("01", VNum 0)]
  = [("1", VNum 1); ("3", VNum 3); ("5", VNum 5); ("10", VNum 10);
     ("id", VStr "a"); ("name", VStr "n"); ("01", VNum 0)].
Proof. vm_compute. reflexivity. Qed.

End TableRowEdit.

Module TableColumns.

Import Table JsonFacts TableFacts.

(** ** Column descriptors *)

Lemma getColumnIndex_idempotent (c : ColumnProps) :
  getColumnIndex (getColumnIndex c) = getColumnIndex c.
Proof.
  destruct c as [d w e ti sd so al r oc].
  destruct w, e, ti; reflexivity.
Qed.

Lemma getColumnData_idempotent (c : ColumnProps) :
  getColumnData (getColumnData c) = getColumnData c.
Proof.
  destruct c as [d w e ti sd so al r oc].
  destruct w as [[| | |]|], e, sd, so as [|[]|], al as [[|]|]; reflexivity.
Qed.

Lemma getColumnIndex_dataIndex (c : ColumnProps) :
  dataIndex (getColumnIndex c) = dataIndex c.
Proof.
  destruct c as [d w e ti sd so al r oc].
  destruct w, e, ti; reflexivity.
Qed.

Lemma getColumnData_dataIndex (c : ColumnProps) :
  dataIndex (getColumnData c) = dataIndex c.
Proof.
  destruct c as [d w e ti sd so al r oc].
  destruct w as [[| | |]|], e, sd, so as [|[]|], al as [[|]|]; reflexivity.
Qed.

(** The branch [getColumn] takes depends on [dataIndex] alone. *)
Lemma getColumn_branch (c c' : ColumnProps) :
  dataIndex c' = dataIndex c →
  getColumn c' =
    (if decide (dataIndex c = Some "$operating") then getColumnOperating c'
     else if decide (dataIndex c = Some "$operating#edit") then
       getColumnOperatingEdit c'
     else if decide (dataIndex c = Some "$operating#del") then
       getColumnOperatingDel c'
     else if decide (dataIndex c = Some "$state") then getColumnState c'
     else if decide (dataIndex c = Some "$index") then getColumnIndex c'
     else getColumnData c').
Proof. intros <-. reflexivity. Qed.

Lemma getColumn_dataIndex (c : ColumnProps) :
  dataIndex (getColumn c) = dataIndex c.
Proof.
  unfold getColumn.
  repeat (case_decide; [done|]).
  case_decide; [apply getColumnIndex_dataIndex | apply getColumnData_dataIndex].
Qed.

Lemma getColumn_idempotent (c : ColumnProps) :
  getColumn (getColumn c) = getColumn c.
Proof.
  rewrite (getColumn_branch c (getColumn c) (getColumn_dataIndex c)).
  unfold getColumn.
  repeat (case_decide; [done|]).
  case_decide;
    [apply getColumnIndex_idempotent | apply getColumnData_idempotent].
Qed.

(** X14 ([getColumns]).  [getColumns] is idempotent on the column
    descriptors, which [render] relies on when it calls it on the same
    [props.columns] at every rendering; it keeps the number, the order and
    the [dataIndex] of the columns. *)
Theorem getColumns_idempotent (columns : list ColumnProps) :
  getColumns (getColumns columns) = getColumns columns
  ∧ length (getColumns columns) = length columns
  ∧ dataIndex <$> getColumns columns = dataIndex <$> columns.
Proof.
  unfold getColumns. split; [|split].
  - rewrite <- list_fmap_compose. apply list_fmap_ext.
    intros i c _. apply getColumn_idempotent.
  - apply length_fmap.
  - rewrite <- list_fmap_compose. apply list_fmap_ext.
    intros i c _. apply getColumn_dataIndex.
Qed.

Lemma getColumn_reserved (c : ColumnProps) :
  (dataIndex c = Some "$operating" → getColumn c = getColumnOperating c)
  ∧ (dataIndex c = Some "$operating#edit" →
     getColumn c = getColumnOperatingEdit c)
  ∧ (dataIndex c = Some "$operating#del" →
     getColumn c = getColumnOperatingDel c)
  ∧ (dataIndex c = Some "$state" → getColumn c = getColumnState c)
  ∧ (dataIndex c = Some "$index" → getColumn c = getColumnIndex c)
  ∧ (¬ reserved (dataIndex c) → getColumn c = getColumnData c).
Proof.
  unfold getColumn, reserved.
  repeat split; intros H; try (rewrite H; reflexivity).
  repeat (case_decide; [tauto|]). done.
Qed.

Lemma getColumnIndex_fields (c : ColumnProps) :
  width (getColumnIndex c) = Some (default (VNum 20) (width c))
  ∧ ellipsis (getColumnIndex c) = Some (default true (ellipsis c))
  ∧ title (getColumnIndex c) = Some (default "#" (title c))
  ∧ onCell (getColumnIndex c) = onCell c
  ∧ render (getColumnIndex c) = RenderIndex.
Proof.
  destruct c as [d w e ti sd so al r oc]. destruct w, e, ti; done.
Qed.

Lemma getColumnData_fields (c : ColumnProps) :
  width (getColumnData c)
  = match width c with
    | None | Some VNull => Some (VNum 120)
    | Some w => Some w
    end
  ∧ ellipsis (getColumnData c) = Some (default true (ellipsis c))
  ∧ title (getColumnData c) = title c
  ∧ render (getColumnData c)
    = match aliasDataIndex c with
      | Some (String a s) => RenderAlias (String a s)
      | _ => render c
      end
  ∧ onCell (getColumnData c) = OnCellGrid
  ∧ sortDirections (getColumnData c)
    = match sortDirections c with
      | Some ds => Some ds
      | None => if bool_decide (column_sorter c = SorterBool true)
                then Some ["descend"; "ascend"] else None
      end.
Proof.
  destruct c as [d w e ti sd so al r oc].
  destruct w as [[| | |]|], e, sd, so as [|[]|], al as [[|]|]; done.
Qed.

(** X15 ([getColumns] and the five reserved columns).  No column leaves
    [getColumns] with an [undefined] width, and only an [$index] column
    that came with a [null] width leaves with [null].  A reserved column
    gets the grid's render in place of the caller's; the operating columns
    get width 80 and [$state] width 14 whatever the caller gave, while
    [$index] and the data columns only fill in what is missing (20 over
    [undefined] and the title [#] for [$index]; 120 over [undefined] and
    over [null] for a data column).  A data column gets the grid's
    [onCell], ellipsis by default, both sort directions when its sorter is
    [true] and none were given, and the alias render when [aliasDataIndex]
    is a non-empty string, its own render being kept otherwise. *)
Theorem getColumn_overrides (c : ColumnProps) :
  width (getColumn c) ≠ None
  ∧ (width (getColumn c) = Some VNull →
     dataIndex c = Some "$index" ∧ width c = Some VNull)
  ∧ (reserved (dataIndex c) → ¬ caller_render (render (getColumn c)))
  ∧ (dataIndex c = Some "$operating" →
     render (getColumn c) = RenderOperating
     ∧ width (getColumn c) = Some (VNum 80)
     ∧ ellipsis (getColumn c) = ellipsis c
     ∧ onCell (getColumn c) = onCell c)
  ∧ (dataIndex c = Some "$operating#edit" →
     render (getColumn c) = RenderOperatingEdit
     ∧ width (getColumn c) = Some (VNum 80)
     ∧ ellipsis (getColumn c) = ellipsis c
     ∧ onCell (getColumn c) = onCell c)
  ∧ (dataIndex c = Some "$operating#del" →
     render (getColumn c) = RenderOperatingDel
     ∧ width (getColumn c) = Some (VNum 80)
     ∧ ellipsis (getColumn c) = ellipsis c
     ∧ onCell (getColumn c) = onCell c)
  ∧ (dataIndex c = Some "$state" →
     render (getColumn c) = RenderState
     ∧ width (getColumn c) = Some (VNum 14)
     ∧ ellipsis (getColumn c) = ellipsis c
     ∧ onCell (getColumn c) = onCell c)
  ∧ (dataIndex c = Some "$index" →
     render (getColumn c) = RenderIndex
     ∧ width (getColumn c)
       = match width c with None => Some (VNum 20) | Some w => Some w end
     ∧ ellipsis (getColumn c) = Some (default true (ellipsis c))
     ∧ title (getColumn c) = Some (default "#" (title c))
     ∧ onCell (getColumn c) = onCell c)
  ∧ (¬ reserved (dataIndex c) →
     width (getColumn c)
     = match width c with
       | None | Some VNull => Some (VNum 120)
       | Some w => Some w
       end
     ∧ ellipsis (getColumn c) = Some (default true (ellipsis c))
     ∧ title (getColumn c) = title c
     ∧ render (getColumn c)
       = match aliasDataIndex c with
         | Some (String a s) => RenderAlias (String a s)
         | _ => render c
         end
     ∧ onCell (getColumn c) = OnCellGrid
     ∧ sortDirections (getColumn c)
       = match sortDirections c with
         | Some ds => Some ds
         | None => if bool_decide (column_sorter c = SorterBool true)
                   then Some ["descend"; "ascend"] else None
         end).
Proof.
  destruct (getColumn_reserved c) as (H1 & H2 & H3 & H4 & H5 & H6).
  destruct (getColumnIndex_fields c) as (Iw & Ie & It & Io & Ir).
  pose proof (getColumnData_fields c) as HD.
  split.
  { destruct (decide (reserved (dataIndex c))) as [Hr|Hr].
    - destruct Hr as [H|[H|[H|[H|H]]]].
      + by rewrite (H1 H).
      + by rewrite (H2 H).
      + by rewrite (H3 H).
      + by rewrite (H4 H).
      + by rewrite (H5 H), Iw.
    - rewrite (H6 Hr). destruct HD as [-> _].
      destruct (width c) as [[| | |]|]; done. }
  split.
  { destruct (decide (reserved (dataIndex c))) as [Hr|Hr].
    - destruct Hr as [H|[H|[H|[H|H]]]].
      + by rewrite (H1 H).
      + by rewrite (H2 H).
      + by rewrite (H3 H).
      + by rewrite (H4 H).
      + rewrite (H5 H), Iw. destruct (width c) as [w|]; [|done].
        cbn. by intros [= ->].
    - rewrite (H6 Hr). destruct HD as [-> _].
      destruct (width c) as [[| | |]|]; done. }
  split.
  { intros [H|[H|[H|[H|H]]]] [Hc|Hc].
    all: try (rewrite (H1 H) in Hc; done).
    all: try (rewrite (H2 H) in Hc; done).
    all: try (rewrite (H3 H) in Hc; done).
    all: try (rewrite (H4 H) in Hc; done).
    all: rewrite (H5 H), Ir in Hc; done. }
  split. { intros H. by rewrite (H1 H). }
  split. { intros H. by rewrite (H2 H). }
  split. { intros H. by rewrite (H3 H). }
  split. { intros H. by rewrite (H4 H). }
  split.
  { intros H. rewrite (H5 H), Ir, Iw, Ie, It, Io.
    by destruct (width c). }
  intros H. by rewrite (H6 H).
Qed.

Lemma render_cell_reserved (t : Table) (c : ColumnProps) record index :
  (dataIndex c = Some "$operating" →
   render_cell t (getColumn c) record index
   = CellIcons (column_render t "$operating" record))
  ∧ (dataIndex c = Some "$operating#edit" →
     render_cell t (getColumn c) record index
     = CellIcons (column_render t "$operating#edit" record))
  ∧ (dataIndex c = Some "$operating#del" →
     render_cell t (getColumn c) record index
     = CellIcons (column_render t "$operating#del" record))
  ∧ (dataIndex c = Some "$state" →
     render_cell t (getColumn c) record index
     = CellMarker (getColumnState_render t record))
  ∧ (dataIndex c = Some "$index" →
     render_cell t (getColumn c) record index = CellIndex (index + 1)).
Proof.
  destruct (getColumn_reserved c) as (H1 & H2 & H3 & H4 & H5 & _).
  repeat split; intros H.
  - by rewrite (H1 H).
  - by rewrite (H2 H).
  - by rewrite (H3 H).
  - by rewrite (H4 H).
  - rewrite (H5 H). clear. destruct c as [d w e ti sd so al r oc].
    destruct w, e, ti; done.
Qed.

Lemma getColumnOperatingRender_cases (t : Table) editor record :
  getColumnOperatingRender t editor record
  = if bool_decide (key_of t record = editingKey (state t))
    then [IconCheck; IconUndo]
    else if bool_decide (editingKey (state t) = None) then editor else [].
Proof.
  unfold getColumnOperatingRender, isEditing, strict_eq.
  repeat case_bool_decide; done.
Qed.

Lemma state_marker_Exists (t : Table) (record : obj) :
  getColumnState_render t record
  = bool_decide (Exists (λ data, key_of t data = key_of t record)
                   (update (dataSourceState t) ++ create (dataSourceState t))).
Proof.
  unfold getColumnState_render.
  rewrite !TableSaves.filter_pos_Exists, <- bool_decide_or.
  apply bool_decide_ext. by rewrite Exists_app.
Qed.

(** X16 ([getColumns], the installed renders).  In a grid whose [rowKey]
    is not a name that every object inherits, for a column that came with
    no render of the grid's, a cell after [getColumns] is: in
    [$operating] and [$operating#edit], the confirm and undo icons when the
    key of the row is [editingKey], the edit icon (with the delete icon in
    [$operating]) when no row is edited, and nothing otherwise; in
    [$operating#del] the delete icon, whether a row is edited or not; in
    [$state] the marker, shown when an entry of the update or create list
    has the key of the row; in [$index] the position in the page plus one;
    in a data column the aliased field of the row when [aliasDataIndex] is
    a non-empty string (not an inherited name either), and what the column
    rendered before when there is no alias. *)
Theorem render_cell_dispatch (t : Table) (c : ColumnProps) (d : string)
    record index :
  plain_rowKey t →
  dataIndex c = Some d →
  caller_render (render c) →
  let cell := render_cell t (getColumn c) record index in
  (d = "$operating" →
   cell = CellIcons
            (if bool_decide (key_of t record = editingKey (state t))
             then [IconCheck; IconUndo]
             else if bool_decide (editingKey (state t) = None)
                  then [IconEdit; IconDelete] else []))
  ∧ (d = "$operating#edit" →
     cell = CellIcons
              (if bool_decide (key_of t record = editingKey (state t))
               then [IconCheck; IconUndo]
               else if bool_decide (editingKey (state t) = None)
                    then [IconEdit] else []))
  ∧ (d = "$operating#del" → cell = CellIcons [IconDelete])
  ∧ (d = "$state" →
     cell = CellMarker
              (bool_decide
                 (Exists (λ data, key_of t data = key_of t record)
                    (update (dataSourceState t)
                     ++ create (dataSourceState t)))))
  ∧ (d = "$index" → cell = CellIndex (S index))
  ∧ (¬ reserved (Some d) →
     ∀ key, aliasDataIndex c = Some key → key ≠ "" →
            key ∉ Object_prototype →
            cell = CellAlias (get_field record key))
  ∧ (¬ reserved (Some d) →
     aliasDataIndex c = None ∨ aliasDataIndex c = Some "" →
     cell = match render c with
            | RenderUndefined => CellDefault
            | _ => CellCaller
            end).
Proof.
  intros _ Hd Hc. cbn zeta.
  destruct (render_cell_reserved t c record index) as (H1 & H2 & H3 & H4 & H5).
  assert (Hdata : ¬ reserved (Some d) →
    render_cell t (getColumn c) record index
    = match aliasDataIndex c with
      | Some (String a s) => CellAlias (get_field record (String a s))
      | _ => match render c with
             | RenderUndefined => CellDefault
             | _ => CellCaller
             end
      end).
  { intros Hr. rewrite <- Hd in Hr.
    rewrite (proj2 (proj2 (proj2 (proj2 (proj2 (getColumn_reserved c))))) Hr).
    unfold render_cell.
    destruct (getColumnData_fields c) as (_ & _ & _ & -> & _).
    destruct (aliasDataIndex c) as [[|a s]|];
      destruct Hc as [Hc | Hc]; rewrite ?Hc; done. }
  split; [|split; [|split; [|split; [|split; [|split]]]]].
  - intros ->. rewrite (H1 Hd). unfold column_render.
    destruct (decide ("$operating" = "$operating")) as [_|[]]; [|done].
    by rewrite getColumnOperatingRender_cases.
  - intros ->. rewrite (H2 Hd). unfold column_render.
    destruct (decide ("$operating#edit" = "$operating")) as [?|_]; [done|].
    destruct (decide ("$operating#edit" = "$operating#edit")) as [_|[]];
      [|done].
    by rewrite getColumnOperatingRender_cases.
  - intros ->. rewrite (H3 Hd). unfold column_render.
    destruct (decide ("$operating#del" = "$operating")) as [?|_]; [done|].
    destruct (decide ("$operating#del" = "$operating#edit")) as [?|_]; [done|].
    by destruct (decide ("$operating#del" = "$operating#del")) as [_|[]].
  - intros ->. by rewrite (H4 Hd), state_marker_Exists.
  - intros ->. rewrite (H5 Hd). f_equal. lia.
  - intros Hr key Hkey Hne _. rewrite (Hdata Hr), Hkey.
    by destruct key.
  - intros Hr Halias. rewrite (Hdata Hr).
    by destruct Halias as [-> | ->].
Qed.

Lemma render_cell_dispatch_witness :
  render_cell loaded_table (getColumn (plain_column "$operating")) first_row 0
  = CellIcons [IconEdit; IconDelete].
Proof.
  refine (proj1 (render_cell_dispatch loaded_table (plain_column "$operating")
                   "$operating" first_row 0 _ eq_refl _) eq_refl).
  - change ("id" ∉ Object_prototype).
    unfold Object_prototype. rewrite !not_elem_of_cons.
    repeat split; try discriminate. apply not_elem_of_nil.
  - by left.
Defined.

End TableColumns.

Module TableRuns.

Import Table JsonFacts TableFacts.

Lemma reload_REQUEST_PARAM (t : Table) param resp :
  REQUEST_PARAM (exec (reload param resp) t)
  = default (REQUEST_PARAM t) param.
Proof.
  destruct (requestLoadData_frame
    (with_REQUEST_PARAM (default (REQUEST_PARAM t) param) t)
    (page (state t))
    (or_number (pageSize (state t)) (defaultPageSize (props t)))
    param (sorter (state t)) resp) as (_ & H & _).
  unfold exec in *. rewrite reload_run. by rewrite H.
Qed.

Lemma handle_REQUEST_PARAM (t : Table) e o :
  REQUEST_PARAM (exec (handle e o) t)
  = default (REQUEST_PARAM t) (reload_param (e, o)).
Proof.
  destruct e as [dataIndex icon record|values|param|current size field order];
    cbn [handle reload_param fst].
  - unfold click, exec, mbind, M_bind, this. case_bool_decide; [|done].
    destruct icon.
    + done.
    + rewrite delete_onClick_run.
      destruct (event_onSave _); [|done]. destruct (neq_false _); [|done].
      apply (reload_REQUEST_PARAM t None).
    + rewrite check_onClick_run.
      destruct (_ && _); [|done]. by destruct (neq_false _).
    + done.
  - unfold exec, mbind, M_bind. by rewrite cell_onSave_run.
  - apply reload_REQUEST_PARAM.
  - destruct (requestLoadData_frame t current size None
      (Some {| name := field; order := order |}) (resp o)) as (_ & H & _).
    exact H.
Qed.

Lemma last_omap_cons {A B} (f : A → option B) (x : A) (l : list A) :
  last (omap f (x :: l))
  = match last (omap f l) with Some y => Some y | None => f x end.
Proof.
  cbn. destruct (f x) as [y|]; [|by destruct (last _)].
  destruct (omap f l) as [|z k] eqn:Hk; [done|].
  rewrite last_cons_cons.
  destruct (last (z :: k)) eqn:Hl; [done|]. by apply last_None in Hl.
Qed.

(** X23 ([reload], over a run).  The stored request parameter is written
    by [reload(p)] alone: after any sequence of clicks, cell saves, reloads
    and page changes it is the parameter of the last reload that passed
    one, and the former one when there was none; a delete that reloads and
    a page change leave it.  The next [reload()] asks for it merged over
    the default parameter. *)
Theorem stored_param_is_last_reload (es : list (Event * Oracle)) (t : Table) :
  REQUEST_PARAM (run es t)
  = default (REQUEST_PARAM t) (last_reload_param es)
  ∧ ∀ resp, requested_param (calls (reload None resp) (run es t))
            = Some (default (REQUEST_PARAM t) (last_reload_param es)
                    ∪ default ∅ (defaultParam (props t))).
Proof.
  assert (H : REQUEST_PARAM (run es t)
              = default (REQUEST_PARAM t) (last_reload_param es)).
  { revert t. induction es as [|[e o] es IH]; intros t; [done|].
    rewrite run_cons, IH, handle_REQUEST_PARAM.
    unfold last_reload_param. rewrite last_omap_cons.
    by destruct (last (omap reload_param es)). }
  split; [done|]. intros resp.
  assert (Hnone : ∀ t0 : Table,
    requested_param (calls (reload None resp) t0)
    = Some (REQUEST_PARAM t0 ∪ default ∅ (defaultParam (props t0)))).
  { intros t0. unfold calls. rewrite reload_run, requestLoadData_run.
    cbn -[spread_all]. rewrite spread_all_3. cbn.
    by rewrite (right_id_L ∅ (∪)). }
  by rewrite Hnone, H, run_props.
Qed.

Lemma handle_keys_total (t : Table) e o :
  resp o = None →
  key_of t <$> dataSource (state (exec (handle e o) t))
  = key_of t <$> dataSource (state t)
  ∧ total (state (exec (handle e o) t)) = total (state t).
Proof.
  intros Ho.
  assert (Hreq : ∀ t0 pg size param srt,
    dataSource (state (exec (requestLoadData pg size param srt None) t0))
    = dataSource (state t0)
    ∧ total (state (exec (requestLoadData pg size param srt None) t0))
      = total (state t0)).
  { intros.
    destruct (requestLoadData_pending t0 pg size param srt)
      as (_ & H1 & H2 & _). by split. }
  unfold exec in Hreq.
  destruct e as [dataIndex icon record|values|param|current size field order];
    cbn [handle]; rewrite ?Ho.
  - unfold click, exec, mbind, M_bind, this. case_bool_decide; [|done].
    destruct icon.
    + done.
    + rewrite delete_onClick_run, Ho.
      destruct (event_onSave _); [|done]. destruct (neq_false _); [|done].
      cbn [fst snd]. unfold exec. rewrite reload_run.
      destruct (Hreq (with_REQUEST_PARAM (default (REQUEST_PARAM t) None) t)
        (page (state t))
        (or_number (pageSize (state t)) (defaultPageSize (props t)))
        None (sorter (state t))) as [H1 H2].
      rewrite H1, H2. done.
    + rewrite check_onClick_run.
      destruct (_ && _); [|done]. by destruct (neq_false _).
    + done.
  - unfold exec, mbind, M_bind. rewrite cell_onSave_run. cbn [fst snd].
    unfold saved_table. cbn [state dataSource total]. split; [|done].
    apply TableSaves.saved_rows_keys.
  - unfold exec. rewrite reload_run.
    destruct (Hreq (with_REQUEST_PARAM (default (REQUEST_PARAM t) param) t)
        (page (state t))
        (or_number (pageSize (state t)) (defaultPageSize (props t)))
        param (sorter (state t))) as [H1 H2].
    rewrite H1, H2. done.
  - destruct (Hreq t current size None
        (Some {| name := field; order := order |})) as [H1 H2].
    unfold exec, onChange. rewrite H1, H2. done.
Qed.

(** X24 (the handlers, over a run).  Rows only come and go with a resolved
    load: through any sequence of clicks, cell saves, reloads and page
    changes none of whose loads resolves, a confirmed delete included, the
    page keeps its number of rows, their keys in order, [total] and the
    index column. *)
Theorem rows_stay_until_a_load_resolves (es : list (Event * Oracle))
    (t : Table) :
  Forall (λ eo, resp eo.2 = None) es →
  key_of t <$> dataSource (state (run es t))
  = key_of t <$> dataSource (state t)
  ∧ length (dataSource (state (run es t))) = length (dataSource (state t))
  ∧ total (state (run es t)) = total (state t)
  ∧ index_column (run es t) = index_column t.
Proof.
  intros Hes.
  assert (H : key_of t <$> dataSource (state (run es t))
              = key_of t <$> dataSource (state t)
              ∧ total (state (run es t)) = total (state t)).
  { revert t. induction Hes as [|[e o] es Ho _ IH]; intros t; [done|].
    rewrite run_cons.
    destruct (IH (exec (handle e o) t)) as [IH1 IH2].
    destruct (handle_keys_total t e o Ho) as [H1 H2].
    rewrite (key_of_props t (exec (handle e o) t) (handle_props t e o)) in IH1.
    split; congruence. }
  destruct H as [Hk Ht].
  assert (Hl : length (dataSource (state (run es t)))
               = length (dataSource (state t))).
  { by rewrite <- (length_fmap (key_of t)), Hk, length_fmap. }
  split; [done|]. split; [done|]. split; [done|].
  by rewrite !index_column_seq, Hl.
Qed.

Lemma rows_stay_until_a_load_resolves_witness :
  total (state (run [(Click "$operating" IconDelete first_row, sample_oracle)]
                    loaded_table))
  = total (state loaded_table).
Proof.
  apply (rows_stay_until_a_load_resolves
           [(Click "$operating" IconDelete first_row, sample_oracle)]
           loaded_table).
  repeat constructor.
Defined.

Lemma saved_table_idem (t : Table) (values : obj) :
  saved_table (saved_table t values) values = saved_table t values.
Proof.
  unfold saved_table.
  cbn [props state dataSource total loading page pageSize sorter editingKey
       REQUEST_PARAM dataSourceState update delete_ create currentEditorCell].
  rewrite !update_onSave_spec, updated_spec_idem.
  f_equal. f_equal.
  rewrite <- list_fmap_compose. apply list_fmap_ext. intros i x _. cbn.
  destruct (decide (same_key (rowKey (props t)) values x)) as [Hx|Hx].
  - rewrite decide_True; [done|]. unfold same_key, spread. done.
  - by rewrite decide_False.
Qed.

(** X26 (the [onSave] of a cell).  A cell save is idempotent: saving the
    same values again leaves the component as the first save left it, and
    makes the same call of the hook. *)
Theorem cell_onSave_idempotent (t : Table) (values : obj) rs1 rs2 :
  let t1 := exec (cell_onSave values rs1) t in
  exec (cell_onSave values rs2) t1 = t1
  ∧ calls (cell_onSave values rs2) t1 = calls (cell_onSave values rs1) t.
Proof.
  cbn zeta. unfold exec, calls. rewrite !cell_onSave_run. cbn [fst snd].
  split; [apply saved_table_idem|done].
Qed.

(** X25 ([reload]).  [reload] is idempotent once its load resolves to the
    same page: a second [reload], with the same parameter or with none,
    makes the same request and leaves the component as the first left it;
    and [reload()] makes the request that [reload(p)] makes for the stored
    [p]. *)
Theorem reload_idempotent (t : Table) param r :
  let t1 := exec (reload param (Some r)) t in
  exec (reload param (Some r)) t1 = t1
  ∧ exec (reload None (Some r)) t1 = t1
  ∧ calls (reload param (Some r)) t1 = calls (reload param (Some r)) t
  ∧ calls (reload None (Some r)) t1
    = calls (reload (Some (REQUEST_PARAM t1)) (Some r)) t.
Proof.
  cbn zeta. unfold exec, calls.
  rewrite !reload_run, !requestLoadData_run. cbn [fst snd].
  rewrite !editStash_exec.
  destruct t as [p [ds tot ld pg ps so ek] rp dss cells].
  cbn -[spread_all].
  destruct (forallb hide_fulfils cells) eqn:Hh; cbn -[spread_all];
    rewrite ?Hh; destruct param as [q|]; cbn -[spread_all];
    repeat split; try done.
  all: rewrite !spread_all_3; cbn;
    by rewrite union_absorb_outer, (right_id_L ∅ (∪)).
Qed.

End TableRuns.

(** * More properties of the tree *)

Module TreeRender.

Import Tree TreeFacts.

Lemma onLoadData_attached (t : Tree) (node a : ref) item elements root :
  objects (store t) !! node = Some item →
  arrays (store t) !! a = Some elements →
  arrays (store t) !! treeData t = Some root →
  elements ≠ [] →
  onLoadData node (Some a) t = Some (attached t node item a root).
Proof.
  intros Hnode Ha Hroot Hne. unfold onLoadData. rewrite Ha. cbn.
  destruct elements as [|x elements]; [done|]. cbn.
  rewrite Hnode. cbn. unfold clone_array. cbn. by rewrite Hroot.
Qed.

Lemma onLoadData_unchanged (t : Tree) (node a : ref) :
  arrays (store t) !! a = Some [] → onLoadData node (Some a) t = Some t.
Proof. intros Ha. unfold onLoadData. by rewrite Ha. Qed.

Lemma attached_well_formed (t : Tree) (node a : ref) item root :
  well_formed t →
  objects (store t) !! node = Some item →
  is_Some (arrays (store t) !! a) →
  arrays (store t) !! treeData t = Some root →
  well_formed (attached t node item a root).
Proof.
  intros (Hroot & Harr & Hobj) Hnode Ha Hr.
  pose proof (fresh_array_unused (store t)) as Hfresh.
  unfold well_formed, attached. cbn. split; [|split].
  - rewrite lookup_insert_eq. eauto.
  - intros a' l r Hl Hin. rewrite lookup_insert_is_Some'.
    destruct (decide (fresh (dom (arrays (store t))) = a')) as [<-|Hne].
    + rewrite lookup_insert_eq in Hl. injection Hl as <-.
      right. by eapply Harr.
    + rewrite lookup_insert_ne in Hl by done. right. by eapply Harr.
  - intros n item' a' Hn Hc. rewrite lookup_insert_is_Some'.
    destruct (decide (node = n)) as [<-|Hne].
    + rewrite lookup_insert_eq in Hn. injection Hn as <-. cbn in Hc.
      injection Hc as <-. by right.
    + rewrite lookup_insert_ne in Hn by done. right. by eapply Hobj.
Qed.

Lemma sample_tree_well_formed : well_formed sample_tree.
Proof.
  split; [by eexists|]. split.
  - intros a l r Ha Hr.
    destruct (decide (a = 1%positive)) as [->|].
    { vm_compute in Ha. injection Ha as <-.
      apply list_elem_of_singleton in Hr as ->. by eexists. }
    destruct (decide (a = 2%positive)) as [->|].
    { vm_compute in Ha. injection Ha as <-.
      apply elem_of_cons in Hr as [->|Hr]; [by eexists|].
      apply list_elem_of_singleton in Hr as ->. by eexists. }
    destruct (decide (a = 3%positive)) as [->|].
    { vm_compute in Ha. injection Ha as <-. by apply elem_of_nil in Hr. }
    cbn in Ha. rewrite !lookup_insert_ne, lookup_singleton_ne in Ha by done.
    done.
  - intros n item a Hn Hc.
    destruct (decide (n = 1%positive)) as [->|].
    { vm_compute in Hn. injection Hn as <-. discriminate Hc. }
    destruct (decide (n = 2%positive)) as [->|].
    { vm_compute in Hn. injection Hn as <-. discriminate Hc. }
    destruct (decide (n = 3%positive)) as [->|].
    { vm_compute in Hn. injection Hn as <-. discriminate Hc. }
    cbn in Hn. rewrite !lookup_insert_ne, lookup_singleton_ne in Hn by done.
    done.
Qed.

(** X18 ([onLoadData]).  On a tree in which no address dangles,
    [onLoadData] does not throw when the node and the loaded array exist,
    and leaves a tree in which no address dangles; it creates no node
    object, keeps every existing array as it is, and allocates at most one
    array. *)
Theorem onLoadData_keeps_well_formed (t : Tree) (node : ref)
    (children : option ref) :
  well_formed t →
  is_Some (objects (store t) !! node) →
  (∀ a, children = Some a → is_Some (arrays (store t) !! a)) →
  ∃ t', onLoadData node children t = Some t'
    ∧ well_formed t'
    ∧ dom (objects (store t')) = dom (objects (store t))
    ∧ arrays (store t) ⊆ arrays (store t')
    ∧ (size (arrays (store t')) ≤ S (size (arrays (store t))))%nat.
Proof.
  intros Hwf [item Hnode] Hc.
  assert (Hsame : well_formed t
    ∧ dom (objects (store t)) = dom (objects (store t))
    ∧ arrays (store t) ⊆ arrays (store t)
    ∧ (size (arrays (store t)) ≤ S (size (arrays (store t))))%nat).
  { split; [done|]. split; [done|]. split; [done|]. lia. }
  destruct children as [a|]; [|by exists t].
  destruct (Hc a eq_refl) as [elements Ha].
  destruct elements as [|x elements].
  { exists t. by rewrite (onLoadData_unchanged t node a Ha). }
  pose proof Hwf as ([root Hroot] & _ & _).
  exists (attached t node item a root).
  rewrite (onLoadData_attached t node a item (x :: elements) root) by done.
  split; [done|]. split; [by apply attached_well_formed|].
  pose proof (fresh_array_unused (store t)) as Hfresh.
  unfold attached. cbn. split; [|split].
  - apply dom_insert_lookup_L. eauto.
  - by apply insert_subseteq.
  - by rewrite map_size_insert_None.
Qed.

Lemma onLoadData_keeps_well_formed_witness :
  ∃ t', onLoadData 1%positive (Some 2%positive) sample_tree = Some t'
    ∧ well_formed t'.
Proof.
  destruct (onLoadData_keeps_well_formed sample_tree 1%positive
              (Some 2%positive)) as (t' & H1 & H2 & _).
  - apply sample_tree_well_formed.
  - by eexists.
  - intros a [= <-]. by eexists.
  - eauto.
Defined.

Lemma renderTreeNodes_S fuel hook s a :
  renderTreeNodes (S fuel) hook s a
  = items ← arrays s !! a; mapM (render_item fuel hook s) items.
Proof. reflexivity. Qed.

Lemma render_item_Some fuel hook s r e :
  render_item fuel hook s r = Some e →
  ∃ item, objects s !! r = Some item
    ∧ element_dataRef e = r
    ∧ element_key e = key item
    ∧ element_title e = item_title hook item
    ∧ match children item with
      | Some c => ∃ sub, renderTreeNodes fuel hook s c = Some sub
                         ∧ element_children e = Some sub
      | None => element_children e = None
      end.
Proof.
  unfold render_item. intros H.
  destruct (objects s !! r) as [item|] eqn:Hi; [|done]. cbn in H.
  exists item. split; [done|].
  destruct (children item) as [c|].
  - destruct (renderTreeNodes fuel hook s c) as [sub|] eqn:Hs; [|done].
    injection H as <-. cbn. eauto 10.
  - injection H as <-. by cbn.
Qed.

Lemma renderTreeNodes_mono hook s fuel :
  ∀ fuel' a out, (fuel ≤ fuel')%nat →
    renderTreeNodes fuel hook s a = Some out →
    renderTreeNodes fuel' hook s a = Some out.
Proof.
  induction fuel as [|fuel IH]; intros fuel' a out Hle H; [done|].
  destruct fuel' as [|fuel']; [lia|].
  rewrite renderTreeNodes_S in *.
  destruct (arrays s !! a) as [items|]; [|done]. cbn in *.
  apply mapM_Some in H. apply mapM_Some.
  eapply Forall2_impl; [exact H|].
  intros r e Hr. unfold render_item in *.
  destruct (objects s !! r) as [item|]; [|done]. cbn in *.
  destruct (children item) as [c|]; [|done].
  destruct (renderTreeNodes fuel hook s c) as [sub|] eqn:Hs; [|done].
  rewrite (IH fuel' c sub) by (done || lia). done.
Qed.

Lemma renderTreeNodes_bounded hook s depth :
  ∀ a, bounded s depth a → is_Some (renderTreeNodes depth hook s a).
Proof.
  induction depth as [|depth IH]; intros a Hb; [done|].
  destruct Hb as (items & Ha & Hall).
  rewrite renderTreeNodes_S, Ha. cbn.
  apply mapM_is_Some. eapply Forall_impl; [exact Hall|].
  intros r (item & Hi & Hc). cbn. unfold render_item. rewrite Hi. cbn.
  destruct (children item) as [c|]; [|by eexists].
  destruct (IH c Hc) as [sub ->]. by eexists.
Qed.

(** X20 ([renderTreeNodes]).  On a store whose nodes nest at most [depth]
    levels deep under the array, [renderTreeNodes] returns, and its result
    is the same for every recursion budget of at least [depth]. *)
Theorem renderTreeNodes_returns (hook : option (TreeNodeData → string))
    (s : Store) (depth : nat) (a : ref) :
  bounded s depth a →
  ∃ out, ∀ fuel, (depth ≤ fuel)%nat →
    renderTreeNodes fuel hook s a = Some out.
Proof.
  intros Hb. destruct (renderTreeNodes_bounded hook s depth a Hb) as [out H].
  exists out. intros fuel Hle. by eapply renderTreeNodes_mono.
Qed.

Lemma sample_tree_bounded : bounded (store sample_tree) 1 (treeData sample_tree).
Proof.
  cbn. eexists. split; [reflexivity|].
  apply Forall_singleton. eexists. split; [reflexivity|]. done.
Qed.

Lemma renderTreeNodes_returns_witness :
  ∃ out, ∀ fuel, (1 ≤ fuel)%nat →
    renderTreeNodes fuel None (store sample_tree) (treeData sample_tree)
    = Some out.
Proof.
  apply (renderTreeNodes_returns None (store sample_tree) 1
           (treeData sample_tree)).
  apply sample_tree_bounded.
Defined.

Lemma renderTreeNodes_items fuel hook s a out :
  renderTreeNodes fuel hook s a = Some out →
  ∃ items, arrays s !! a = Some items
    ∧ Forall2 (λ r e, render_item (pred fuel) hook s r = Some e) items out.
Proof.
  destruct fuel as [|fuel]; [done|]. rewrite renderTreeNodes_S.
  destruct (arrays s !! a) as [items|]; [|done]. cbn. intros H.
  exists items. split; [done|]. by apply mapM_Some.
Qed.

(** X19 ([componentDidMount], [onLoadData]).  After mounting, [treeData]
    is the loader's array itself.  Expanding a node, and expanding it again
    with the same children, gives [treeData] a new array each time, with
    the same elements; the loader's array and the array of the first
    expansion are left in the store unchanged, and the second expansion
    changes no node object. *)
Theorem mount_then_expand_twice (t : Tree) (loaded node a : ref)
    (item : TreeNodeData) (elements root : list ref) :
  objects (store t) !! node = Some item →
  arrays (store t) !! a = Some elements →
  arrays (store t) !! loaded = Some root →
  elements ≠ [] →
  ∃ t1 t2, onLoadData node (Some a) (componentDidMount loaded t) = Some t1
    ∧ onLoadData node (Some a) t1 = Some t2
    ∧ objects (store t2) = objects (store t1)
    ∧ treeData t1 ≠ loaded
    ∧ treeData t2 ≠ treeData t1
    ∧ treeData t2 ≠ loaded
    ∧ arrays (store t2) !! loaded = Some root
    ∧ arrays (store t2) !! treeData t1 = Some root
    ∧ arrays (store t2) !! treeData t2 = Some root.
Proof.
  intros Hnode Ha Hroot Hne.
  set (t0 := componentDidMount loaded t).
  pose proof (fresh_array_unused (store t0)) as Hf.
  set (t1 := attached t0 node item a root).
  pose proof (fresh_array_unused (store t1)) as Hf1.
  assert (Hr1 : treeData t1 ≠ loaded).
  { intros E. cbn in E. rewrite <- E in Hroot. cbn in Hf. congruence. }
  assert (Ha1 : arrays (store t1) !! a = Some elements).
  { cbn. rewrite lookup_insert_ne; [done|]. intros E. cbn in Hf. congruence. }
  assert (Hroot1 : arrays (store t1) !! treeData t1 = Some root).
  { cbn. by rewrite lookup_insert_eq. }
  assert (Hnode1 : objects (store t1) !! node = Some (set_children item a)).
  { cbn. by rewrite lookup_insert_eq. }
  exists t1, (attached t1 node (set_children item a) a root).
  split; [by apply (onLoadData_attached t0 node a item elements root)|].
  split; [by eapply onLoadData_attached|].
  assert (H21 : fresh (dom (arrays (store t1))) ≠ treeData t1).
  { intros E. rewrite E in Hf1. congruence. }
  assert (H20 : fresh (dom (arrays (store t1))) ≠ loaded).
  { intros E. rewrite E in Hf1. cbn in Hf1.
    rewrite lookup_insert_ne in Hf1 by done. congruence. }
  split. { cbn. by rewrite insert_insert_eq. }
  split; [done|]. split; [done|]. split; [done|].
  split. { cbn. rewrite !lookup_insert_ne by done. done. }
  split. { cbn. rewrite lookup_insert_ne by done. by rewrite lookup_insert_eq. }
  cbn. by rewrite lookup_insert_eq.
Qed.

Lemma mount_then_expand_twice_witness :
  ∃ t1 t2,
    onLoadData 1%positive (Some 2%positive)
      (componentDidMount 1%positive sample_tree) = Some t1
    ∧ onLoadData 1%positive (Some 2%positive) t1 = Some t2
    ∧ objects (store t2) = objects (store t1).
Proof.
  destruct (mount_then_expand_twice sample_tree 1%positive 1%positive
              2%positive (leaf "root") [2%positive; 3%positive] [1%positive])
    as (t1 & t2 & H1 & H2 & H3 & _); [reflexivity..|done|eauto].
Defined.

Lemma renderTreeNodes_dataRefs fuel hook s a out :
  renderTreeNodes fuel hook s a = Some out →
  ∃ items, arrays s !! a = Some items ∧ element_dataRef <$> out = items.
Proof.
  intros H. apply renderTreeNodes_items in H as (items & Ha & H).
  exists items. split; [done|]. clear Ha.
  induction H as [|r e items out Hr _ IH]; [done|].
  apply render_item_Some in Hr as (item & _ & Hd & _). cbn.
  by rewrite Hd, IH.
Qed.

(** ** The shape of a rendering *)

Lemma flatten_node x k r (c : option (list Element)) :
  flatten (TreeNode x k r c)
  = TreeNode x k r c :: (default [] c ≫= flatten).
Proof.
  cbn [flatten]. f_equal. destruct c as [l|]; [|done]. cbn.
  induction l as [|e l IH]; [done|]. cbn. by rewrite IH.
Qed.

Lemma flatten_element (e : Element) :
  flatten e = e :: (default [] (element_children e) ≫= flatten).
Proof. destruct e. apply flatten_node. Qed.

Lemma render_item_shows fuel hook s r e :
  render_item fuel hook s r = Some e →
  shows hook s e
  ∧ ∀ sub, element_children e = Some sub →
      ∃ c, renderTreeNodes fuel hook s c = Some sub.
Proof.
  intros Hr.
  apply render_item_Some in Hr as (item & Hi & Hd & Hk & Ht & Hc).
  split.
  - exists item. rewrite Hd. split; [done|]. split; [done|].
    split; [by destruct hook|].
    destruct (children item) as [c|]; [|done].
    destruct Hc as (sub & Hsub & Hch). exists sub. split; [done|].
    by apply renderTreeNodes_dataRefs in Hsub as (items & -> & ->).
  - intros sub Hsub. destruct (children item) as [c|].
    + destruct Hc as (sub' & Hr & Hch). exists c. congruence.
    + congruence.
Qed.

Lemma renderTreeNodes_shows hook s fuel :
  ∀ a out, renderTreeNodes fuel hook s a = Some out →
    Forall (shows hook s) (out ≫= flatten).
Proof.
  induction fuel as [|fuel IH]; intros a out Hout; [done|].
  apply renderTreeNodes_items in Hout as (items & _ & Hall). cbn in Hall.
  induction Hall as [|r e items out Hr _ IHall]; [constructor|].
  cbn. apply Forall_app. split; [|done].
  apply render_item_shows in Hr as [Hshow Hsub].
  rewrite flatten_element. constructor; [done|].
  destruct (element_children e) as [sub|]; [|constructor].
  destruct (Hsub sub eq_refl) as [c Hc]. cbn. by eapply IH.
Qed.

(** X21 ([renderTreeNodes]).  On a store whose nodes nest at most [depth]
    levels deep under the array, [renderTreeNodes] returns one element per
    item of the array, in order, whose [dataRef] is the item itself; and
    every element of the rendering, at every level, carries the key of its
    node, as title the answer of [onRenderTreeNodeTitle] for the node when
    the hook is given and the node's title otherwise, and child elements
    exactly for the items of the node's [children] array, in order, when
    the node has that field. *)
Theorem renderTreeNodes_shape (hook : option (TreeNodeData → string))
    (s : Store) (depth : nat) (a : ref) :
  bounded s depth a →
  ∃ items out,
    arrays s !! a = Some items
    ∧ renderTreeNodes depth hook s a = Some out
    ∧ element_dataRef <$> out = items
    ∧ Forall (shows hook s) (out ≫= flatten).
Proof.
  intros Hb.
  destruct (renderTreeNodes_bounded hook s depth a Hb) as [out Hout].
  destruct (renderTreeNodes_dataRefs _ _ _ _ _ Hout) as (items & Hi & Hd).
  exists items, out. split; [done|]. split; [done|]. split; [done|].
  by eapply renderTreeNodes_shows.
Qed.

Lemma renderTreeNodes_shape_witness :
  ∃ items out,
    arrays (store sample_tree) !! treeData sample_tree = Some items
    ∧ renderTreeNodes 1 (Some (λ item, "+" +:+ key item)) (store sample_tree)
        (treeData sample_tree) = Some out
    ∧ element_dataRef <$> out = items.
Proof.
  destruct (renderTreeNodes_shape (Some (λ item, "+" +:+ key item))
              (store sample_tree) 1 (treeData sample_tree)
              sample_tree_bounded) as (items & out & H1 & H2 & H3 & _).
  eauto.
Defined.

(** The rendering with a hook, on the sample tree. *)
Example renderTreeNodes_hook :
  renderTreeNodes 1 (Some (λ item, "+" +:+ key item)) (store sample_tree)
    (treeData sample_tree)
  = Some [TreeNode "+root" "root" 1%positive None].
Proof. vm_compute. reflexivity. Qed.

(** ** Rendering after an expansion *)

Lemma bounded_leaves (s : Store) (a : ref) (elements : list ref) (d : nat) :
  arrays s !! a = Some elements →
  Forall (λ r, ∃ item, objects s !! r = Some item ∧ children item = None)
         elements →
  bounded s (S d) a.
Proof.
  intros Ha Hall. cbn. exists elements. split; [done|].
  eapply Forall_impl; [exact Hall|].
  intros r (item & Hi & Hc). exists item. split; [done|]. by rewrite Hc.
Qed.

Section Attached.
Context (t : Tree) (node a : ref) (item : TreeNodeData)
        (elements root : list ref).
Hypothesis Hnode : objects (store t) !! node = Some item.
Hypothesis Ha : arrays (store t) !! a = Some elements.
Hypothesis Hleaves : new_leaves (store t) node elements.

Lemma attached_array (b : ref) (items : list ref) :
  arrays (store t) !! b = Some items →
  arrays (store (attached t node item a root)) !! b = Some items.
Proof.
  intros Hb. pose proof (fresh_array_unused (store t)) as Hf.
  cbn. rewrite lookup_insert_ne; [done|]. congruence.
Qed.

Lemma attached_leaves (d : nat) :
  bounded (store (attached t node item a root)) (S d) a.
Proof.
  apply (bounded_leaves _ _ elements); [by apply attached_array|].
  eapply Forall_impl; [exact Hleaves|].
  intros r (Hr & leaf & Hl & Hc). exists leaf. split; [|done].
  cbn. by rewrite lookup_insert_ne.
Qed.

Lemma attached_object (r : ref) (x : TreeNodeData) :
  objects (store t) !! r = Some x →
  ∃ x', objects (store (attached t node item a root)) !! r = Some x'
    ∧ (children x' = children x ∨ (r = node ∧ children x' = Some a)).
Proof.
  intros Hx. destruct (decide (r = node)) as [->|Hr].
  - exists (set_children item a). cbn. rewrite lookup_insert_eq. auto.
  - exists x. cbn. rewrite lookup_insert_ne by done. auto.
Qed.

Lemma attached_bounded (d : nat) :
  ∀ b, bounded (store t) d b →
       bounded (store (attached t node item a root)) (S d) b.
Proof.
  induction d as [|d IH]; intros b Hb; [done|].
  destruct Hb as (items & Hi & Hall).
  exists items. split; [by apply attached_array|].
  eapply Forall_impl; [exact Hall|].
  intros r (x & Hx & Hc).
  destruct (attached_object r x Hx) as (x' & Hx' & [Hsame | [-> Hnew]]).
  - exists x'. split; [done|]. rewrite Hsame.
    destruct (children x) as [c|]; [|done]. by apply IH.
  - exists x'. split; [done|]. rewrite Hnew. apply attached_leaves.
Qed.

Lemma attached_root_bounded (d : nat) :
  arrays (store t) !! treeData t = Some root →
  bounded (store t) d (treeData t) →
  bounded (store (attached t node item a root)) (S d) (treeData (attached t node item a root)).
Proof.
  intros Hroot Hb. apply attached_bounded in Hb.
  destruct Hb as (items & Hi & Hall).
  rewrite (attached_array _ _ Hroot) in Hi. injection Hi as <-.
  exists root. split; [|done]. cbn. by rewrite lookup_insert_eq.
Qed.
End Attached.

(** X22 ([onLoadData], then [renderTreeNodes]).  When a node of a tree
    that nests at most [depth] levels deep is expanded with a non-empty
    array of new childless nodes, [onLoadData] succeeds and the tree
    renders, one level deeper at most: the rendering has the same top-level
    nodes as before, every element of it shows its node of the new store,
    and every top-level element of the expanded node carries one childless
    child element per loaded item, in order. *)
Theorem expanded_node_renders_children (t : Tree) (node a : ref)
    (item : TreeNodeData) (elements root : list ref) (depth : nat)
    (hook : option (TreeNodeData → string)) :
  objects (store t) !! node = Some item →
  arrays (store t) !! a = Some elements →
  arrays (store t) !! treeData t = Some root →
  elements ≠ [] →
  new_leaves (store t) node elements →
  bounded (store t) depth (treeData t) →
  ∃ t' out,
    onLoadData node (Some a) t = Some t'
    ∧ renderTreeNodes (S depth) hook (store t') (treeData t') = Some out
    ∧ element_dataRef <$> out = root
    ∧ Forall (shows hook (store t')) (out ≫= flatten)
    ∧ ∀ e, e ∈ out → element_dataRef e = node →
        ∃ sub, element_children e = Some sub
          ∧ element_dataRef <$> sub = elements
          ∧ Forall (λ x, element_children x = None) sub.
Proof.
  intros Hnode Ha Hroot Hne Hleaves Hb.
  set (t' := attached t node item a root).
  assert (Hb' : bounded (store t') (S depth) (treeData t')).
  { by apply (attached_root_bounded t node a item elements root). }
  destruct (renderTreeNodes_bounded hook _ _ _ Hb') as [out Hout].
  exists t', out.
  split; [by apply (onLoadData_attached t node a item elements root)|].
  split; [done|].
  pose proof (fresh_array_unused (store t)) as Hf.
  assert (Ha' : arrays (store t') !! a = Some elements).
  { by apply attached_array. }
  split.
  { apply renderTreeNodes_dataRefs in Hout as (items & Hi & <-).
    cbn in Hi. rewrite lookup_insert_eq in Hi. by injection Hi as <-. }
  split; [by eapply renderTreeNodes_shows|].
  intros e He Hd.
  apply renderTreeNodes_items in Hout as (items & _ & Hall).
  apply list_elem_of_lookup in He as [i He].
  destruct (Forall2_lookup_r _ _ _ _ _ Hall He) as (r & _ & Hr).
  apply render_item_Some in Hr as (item' & Hi & Hd' & _ & _ & Hc).
  rewrite Hd in Hd'. subst r. cbn in Hi. rewrite lookup_insert_eq in Hi.
  injection Hi as <-. cbn [children set_children] in Hc.
  destruct Hc as (sub & Hsub & Hch).
  exists sub. split; [done|].
  apply renderTreeNodes_items in Hsub as (items' & Hi' & Hall').
  rewrite Ha' in Hi'. injection Hi' as <-.
  split.
  - clear -Hall'. induction Hall' as [|r e ? ? Hr _ IH]; [done|].
    apply render_item_Some in Hr as (? & _ & Hd & _). cbn. by rewrite Hd, IH.
  - clear -Hall' Hleaves. unfold new_leaves in Hleaves.
    induction Hall' as [|r e ? ? Hr _ IH]; [constructor|].
    apply Forall_cons in Hleaves as [(Hrn & leaf & Hl & Hcl) Hleaves].
    constructor; [|by apply IH].
    apply render_item_Some in Hr as (x & Hx & _ & _ & _ & Hc).
    cbn in Hx. rewrite lookup_insert_ne in Hx by done.
    rewrite Hl in Hx. injection Hx as <-. by rewrite Hcl in Hc.
Qed.

Lemma expanded_node_renders_children_witness :
  ∃ t' out,
    onLoadData 1%positive (Some 2%positive) sample_tree = Some t'
    ∧ renderTreeNodes 2 None (store t') (treeData t') = Some out
    ∧ element_dataRef <$> out = [1%positive].
Proof.
  destruct (expanded_node_renders_children sample_tree 1%positive 2%positive
              (leaf "root") [2%positive; 3%positive] [1%positive] 1 None)
    as (t' & out & H1 & H2 & H3 & _).
  - reflexivity.
  - reflexivity.
  - reflexivity.
  - done.
  - repeat constructor; try done; by eexists.
  - apply sample_tree_bounded.
  - eauto.
Defined.

(** The sample tree after the expansion of its root. *)
Example expanded_sample_tree :
  (t' ← onLoadData 1%positive (Some 2%positive) sample_tree;
   renderTreeNodes 2 None (store t') (treeData t'))
  = Some [TreeNode "root" "root" 1%positive
            (Some [TreeNode "a" "a" 2%positive None;
                   TreeNode "b" "b" 3%positive None])].
Proof. vm_compute. reflexivity. Qed.

End TreeRender.
